(** * geotif2envi: the batch GeoTIFF -> ENVI converter, embedded and verified

    The development follows [geotif2envi.py].  The script's own functions
    ([extract_date_from_filename], [geotiff_to_envi], [read_file_list],
    [save_list_to_file], [main]) are translated statement by statement.
    The library routines they call are modelled from the behaviour of
    CPython and GDAL:

    - Python strings are [string]s, that is code points below 256
      (Latin-1); in that range the class [\d] of [re] is exactly the ten
      ASCII digits.
    - Paths follow [posixpath], the flavour of [os.path] on the systems
      the script's docstring names (Linux, MacOS).
    - [re.search] and [datetime.strptime] run a backtracking matcher on
      the patterns they compile; the calendar is that of [datetime].
    - GDAL runs without exceptions (the script tests its results for
      [None]); a dataset handle refers to the file by its path; pixel
      arrays, geotransforms and the encoding of a band are parameters.
    - Text files are read and written as the text they hold; writing into
      the output folder succeeds (the folder is assumed to exist).

    Effects are explicit: a computation takes a state and returns the
    state it leaves with a value or the exception it raised. *)

From Stdlib Require Import ZArith NArith Ascii String DecimalString.
From stdpp Require Import base option list gmap strings.
From Stdlib Require Import Lia.

Local Open Scope Z_scope.

(** ** Python strings *)

Module PyStr.

(** [\d] on a Latin-1 character. *)
Definition is_digit (c : ascii) : bool :=
  ((48 <=? N_of_ascii c) && (N_of_ascii c <=? 57))%N.

Definition digit_val (c : ascii) : N := (N_of_ascii c - 48)%N.

Fixpoint all_digits (s : string) : bool :=
  match s with
  | EmptyString => true
  | String c s' => is_digit c && all_digits s'
  end.

Fixpoint drop (n : nat) (s : string) : string :=
  match n, s with
  | O, _ => s
  | S n', EmptyString => EmptyString
  | S n', String _ s' => drop n' s'
  end.

Fixpoint take (n : nat) (s : string) : string :=
  match n, s with
  | O, _ => EmptyString
  | S n', EmptyString => EmptyString
  | S n', String c s' => String c (take n' s')
  end.

(** A slice index as Python normalises it: negative indices count from
    the end, and everything is clipped to the string. *)
Definition index (i : Z) (s : string) : nat :=
  Z.to_nat (if i <? 0 then Z.max 0 (Z.of_nat (String.length s) + i) else i).

(** [s[i:]], [s[:j]] and [s[i:j]]. *)
Definition slice_from (i : Z) (s : string) : string := drop (index i s) s.
Definition slice_to (j : Z) (s : string) : string := take (index j s) s.
Definition slice (i j : Z) (s : string) : string :=
  take (index j s - index i s) (drop (index i s) s).

(** [s.rfind(c)] for a one-character needle: the highest index holding
    [c], or [-1].  [rfind_from i] scans a suffix that starts at index [i]. *)
Fixpoint rfind_from (i : Z) (c : ascii) (s : string) : Z :=
  match s with
  | EmptyString => -1
  | String a s' =>
      let r := rfind_from (i + 1) c s' in
      if 0 <=? r then r else if Ascii.eqb a c then i else -1
  end.

Definition rfind (c : ascii) (s : string) : Z := rfind_from 0 c s.

Definition startswith (c : ascii) (s : string) : bool :=
  match s with
  | String a _ => Ascii.eqb a c
  | EmptyString => false
  end.

Fixpoint endswith (c : ascii) (s : string) : bool :=
  match s with
  | EmptyString => false
  | String a EmptyString => Ascii.eqb a c
  | String _ s' => endswith c s'
  end.

(** [int(s)] on the texts the date parser captures: optional leading
    blanks, then decimal digits. *)
Fixpoint int_digits (acc : N) (s : string) : option N :=
  match s with
  | EmptyString => Some acc
  | String c s' =>
      if is_digit c then int_digits (10 * acc + digit_val c)%N s' else None
  end.

Fixpoint lstrip_blank (s : string) : string :=
  match s with
  | String " " s' => lstrip_blank s'
  | _ => s
  end.

Definition int (s : string) : option N :=
  match lstrip_blank s with
  | EmptyString => None
  | t => int_digits 0%N t
  end.

(** [str(n)] for a non-negative integer. *)
Definition str (n : N) : string := NilZero.string_of_uint (N.to_uint n).

(** [format(n, '03d')]: decimal, padded with zeros on the left to at
    least three characters. *)
Definition format_03d (n : N) : string :=
  let s := str n in
  String.concat EmptyString (replicate (3 - String.length s)%nat "0") +:+ s.

End PyStr.

(** ** Regular expressions

    The fragment of [re] the program exercises: character ranges,
    concatenation and ordered alternation.  [matches] is a backtracking
    matcher in continuation-passing style, so an alternation commits to the
    first branch whose continuation succeeds, as [re] does. *)

Module Re.

Inductive regex : Type :=
| Eps : regex
| Range (lo hi : ascii) : regex
| Seq (r1 r2 : regex) : regex
| Alt (r1 r2 : regex) : regex.

Definition in_range (lo hi c : ascii) : bool :=
  ((N_of_ascii lo <=? N_of_ascii c) && (N_of_ascii c <=? N_of_ascii hi))%N.

Fixpoint matches {A : Type} (r : regex) (s : string)
    (k : string -> option A) : option A :=
  match r with
  | Eps => k s
  | Range lo hi =>
      match s with
      | String c s' => if in_range lo hi c then k s' else None
      | EmptyString => None
      end
  | Seq r1 r2 => matches r1 s (fun s1 => matches r2 s1 k)
  | Alt r1 r2 =>
      match matches r1 s k with
      | Some x => Some x
      | None => matches r2 s k
      end
  end.

Definition Chr (c : ascii) : regex := Range c c.
(** [\d] *)
Definition Digit : regex := Range "0" "9".

(** [r{n}] *)
Fixpoint Repeat (n : nat) (r : regex) : regex :=
  match n with
  | O => Eps
  | S n' => Seq r (Repeat n' r)
  end.

(** The text consumed when [rest] is what is left of [s]. *)
Definition consumed (s rest : string) : string :=
  PyStr.take (String.length s - String.length rest) s.

(** [re.match(r, s)]: the match anchored at the start, as its text. *)
Definition match_ (r : regex) (s : string) : option string :=
  matches r s (fun rest => Some (consumed s rest)).

(** [re.search(r, s)] followed by [.group()]: the leftmost match. *)
Fixpoint search (r : regex) (s : string) : option string :=
  match match_ r s with
  | Some m => Some m
  | None =>
      match s with
      | EmptyString => None
      | String _ s' => search r s'
      end
  end.

End Re.

(** ** The calendar of [datetime] *)

Module Datetime.

Definition MINYEAR : N := 1.
Definition MAXYEAR : N := 9999.

Definition _is_leap (year : N) : bool :=
  ((year mod 4 =? 0) && (negb (year mod 100 =? 0) || (year mod 400 =? 0)))%N.

(** The tables are indexed by month; index 0 is a placeholder, as in
    [datetime.py] (where it holds -1 and is never read). *)
Definition _DAYS_IN_MONTH : list N :=
  [0; 31; 28; 31; 30; 31; 30; 31; 31; 30; 31; 30; 31]%N.

Definition _DAYS_BEFORE_MONTH : list N :=
  [0; 0; 31; 59; 90; 120; 151; 181; 212; 243; 273; 304; 334]%N.

Definition _days_in_month (year month : N) : N :=
  if (month =? 2)%N && _is_leap year then 29%N
  else default 0%N (_DAYS_IN_MONTH !! N.to_nat month).

Definition _days_before_month (year month : N) : N :=
  (default 0 (_DAYS_BEFORE_MONTH !! N.to_nat month)
   + (if (2 <? month) && _is_leap year then 1 else 0))%N.

Record date : Type := mkdate { year : N; month : N; day : N }.

(** [_check_date_fields]: the constructor refuses anything that is not a
    date of the proleptic Gregorian calendar in years 1..9999. *)
Definition check_date_fields (y m d : N) : bool :=
  ((MINYEAR <=? y) && (y <=? MAXYEAR) && (1 <=? m) && (m <=? 12)
   && (1 <=? d) && (d <=? _days_in_month y m))%N.

Definition new (y m d : N) : option date :=
  if check_date_fields y m d then Some (mkdate y m d) else None.

(** [timetuple().tm_yday] *)
Definition tm_yday (dt : date) : N :=
  (_days_before_month (year dt) (month dt) + day dt)%N.

(** The patterns [_strptime] substitutes for the directives [%Y], [%m]
    and [%d]. *)
Import Re.
Definition re_Y : regex := Repeat 4 Digit.
Definition re_m : regex :=
  Alt (Seq (Chr "1") (Range "0" "2"))
    (Alt (Seq (Chr "0") (Range "1" "9")) (Range "1" "9")).
Definition re_d : regex :=
  Alt (Seq (Chr "3") (Range "0" "1"))
    (Alt (Seq (Range "1" "2") Digit)
       (Alt (Seq (Chr "0") (Range "1" "9"))
          (Alt (Range "1" "9") (Seq (Chr " ") (Range "1" "9"))))).

(** [datetime.strptime(data_string, '%Y%m%d')]; [None] stands for the
    [ValueError] it raises.  The three groups are matched at the start of
    the text, the match has to reach its end ("unconverted data
    remains" otherwise), and the numbers have to form a date. *)
Definition strptime_Ymd (data_string : string) : option date :=
  found ← matches re_Y data_string (fun s1 =>
             matches re_m s1 (fun s2 =>
               matches re_d s2 (fun s3 => Some (s1, s2, s3))));
  let '(s1, s2, s3) := found in
  if negb (String.eqb s3 EmptyString) then None
  else
    y ← PyStr.int (consumed data_string s1);
    m ← PyStr.int (consumed s1 s2);
    d ← PyStr.int (consumed s2 s3);
    new y m d.

End Datetime.

(** ** Exceptions and results *)

(** One constructor per place an exception can come from; the names are
    the error kinds of the specification.  [class_of] below gives the
    Python class of each. *)
Inductive exn : Type :=
| MissingInputList (file_path : string)         (* open(), line 105 *)
| DateFormatNotFound (filename : string)        (* line 34 *)
| InvalidDateValue (date_str : string)          (* datetime.strptime, line 37 *)
| UnsupportedPixelType (output_dtype : string)  (* line 50 *)
| SourceOpenFailure (geotiff_path : string)     (* line 68 *)
| DriverUnavailable                             (* line 80 *)
| DestinationCreateFailure (output_path : string). (* line 85 *)

Inductive result (A : Type) : Type :=
| Ok (a : A)
| Raise (e : exn).
Arguments Ok {A} a.
Arguments Raise {A} e.

(** ** [extract_date_from_filename] *)

Definition extract_date_from_filename (filename : string)
    (date_format : Re.regex) : result string :=
  match Re.search date_format filename with
  | None => Raise (DateFormatNotFound filename)
  | Some date_str =>
      match Datetime.strptime_Ymd date_str with
      | None => Raise (InvalidDateValue date_str)
      | Some date_obj =>
          let doy := Datetime.tm_yday date_obj in
          Ok (PyStr.str (Datetime.year date_obj) +:+ PyStr.format_03d doy)
      end
  end.

(** The pattern [main] passes: [\d{8}]. *)
Definition date_format_main : Re.regex := Re.Repeat 8 Re.Digit.

(** ** Paths ([posixpath]) *)

Module PosixPath.

Definition sep : ascii := "/".
Definition extsep : ascii := ".".

Definition basename (p : string) : string :=
  let i := PyStr.rfind sep p + 1 in
  PyStr.slice_from i p.

(** The loop of [genericpath._splitext] that steps over leading dots;
    [n] counts the iterations left, [dotIndex - filenameIndex]. *)
Fixpoint splitext_loop (n : nat) (filenameIndex dotIndex : Z) (p : string)
    : option (string * string) :=
  match n with
  | O => None
  | S n' =>
      if negb (String.eqb (PyStr.slice filenameIndex (filenameIndex + 1) p)
                 (String extsep EmptyString))
      then Some (PyStr.slice_to dotIndex p, PyStr.slice_from dotIndex p)
      else splitext_loop n' (filenameIndex + 1) dotIndex p
  end.

Definition splitext (p : string) : string * string :=
  let sepIndex := PyStr.rfind sep p in
  let dotIndex := PyStr.rfind extsep p in
  let fallthrough := (p, PyStr.slice_to 0 p) in
  if sepIndex <? dotIndex then
    let filenameIndex := sepIndex + 1 in
    match splitext_loop (Z.to_nat (dotIndex - filenameIndex))
            filenameIndex dotIndex p with
    | Some r => r
    | None => fallthrough
    end
  else fallthrough.

(** [os.path.join(a, b)] with one component after the first. *)
Definition join (a b : string) : string :=
  if PyStr.startswith sep b then b
  else if String.eqb a EmptyString || PyStr.endswith sep a then a +:+ b
  else a +:+ String sep EmptyString +:+ b.

End PosixPath.

(** ** Text files *)

Module TextIO.

(** What reading in text mode does to line ends (universal newlines). *)
Fixpoint universal_newlines (s : string) : string :=
  match s with
  | EmptyString => EmptyString
  | String "013" s' =>
      match s' with
      | String "010" s'' => String "010" (universal_newlines s'')
      | _ => String "010" (universal_newlines s')
      end
  | String c s' => String c (universal_newlines s')
  end.

(** The characters [str.splitlines] breaks a line at (those below 256). *)
Definition is_line_boundary (c : ascii) : bool :=
  match c with
  | "010" | "011" | "012" | "013" | "028" | "029" | "030" | "133" => true
  | _ => false
  end%char.

(** [str.splitlines()]: [cur] is the line being read, reversed, or
    [None] right after a break (so that no empty last line is made). *)
Fixpoint splitlines_go (cur : option string) (s : string) : list string :=
  match s with
  | EmptyString => option_list (String.rev <$> cur)
  | String c s' =>
      if is_line_boundary c then
        String.rev (default EmptyString cur)
        :: match c, s' with
           | "013"%char, String "010" s'' => splitlines_go None s''
           | _, _ => splitlines_go None s'
           end
      else splitlines_go (Some (String c (default EmptyString cur))) s'
  end.

Definition splitlines (s : string) : list string := splitlines_go None s.

(** The text ["\n"]. *)
Definition newline : string := String "010" EmptyString.

End TextIO.

(** ** GDAL and the world the program runs in *)

Inductive GDALDataType : Type := GDT_Byte | GDT_Int16 | GDT_Float32.

(** What the program does not look into: pixel arrays, geotransform
    coefficients, and how GDAL stores an array in a band of a given type. *)
Class Gdal : Type := {
  pixels : Type;
  geotransform : Type;
  (** geotransform of a dataset that was just created *)
  default_geotransform : geotransform;
  (** contents of a band of a dataset that was just created *)
  blank : nat -> nat -> GDALDataType -> pixels;
  (** contents of a band of the given type after [WriteArray(data)] *)
  stored_as : GDALDataType -> pixels -> pixels;
}.

Inductive stdout_line : Type :=
| Msg_list_not_found (file_list_path : string)
| Msg_conversion_error (e : exn)
| Msg_output_files_saved (output_file_list_path : string)
| Msg_time_vector_saved (time_vector_path : string).

Inductive event : Type :=
| GdalOpen (path : string)
| GdalGetDriverByName (name : string)
| GdalCreate (path : string)
| FileWrite (path : string)
| Stdout (line : stdout_line).

Section World.
Context `{Gdal}.

Record raster : Type := mkraster {
  RasterXSize : nat;
  RasterYSize : nat;
  DataType : GDALDataType;
  GeoTransform : geotransform;
  Projection : string;
  bands : list pixels;
}.

Definition RasterCount (r : raster) : nat := length (bands r).

(** The file system and the GDAL installation, with the calls made so
    far in the order they were made. *)
Record World : Type := mkWorld {
  rasters : gmap string raster;   (* datasets GDAL can open, by path *)
  envi_driver : bool;             (* is the ENVI driver registered *)
  creatable : string -> bool;     (* can the driver create this path *)
  files : gmap string string;     (* text files, by path *)
  trace : list event;
}.

Definition log (e : event) (w : World) : World :=
  mkWorld (rasters w) (envi_driver w) (creatable w) (files w) (trace w ++ [e]).

Definition set_rasters (f : gmap string raster -> gmap string raster)
    (w : World) : World :=
  mkWorld (f (rasters w)) (envi_driver w) (creatable w) (files w) (trace w).

Definition set_files (f : gmap string string -> gmap string string)
    (w : World) : World :=
  mkWorld (rasters w) (envi_driver w) (creatable w) (f (files w)) (trace w).

(** The local variables of [geotiff_to_envi] that outlive an iteration. *)
Record locals : Type := mklocals {
  output_files : list string;
  time_vector : list string;
}.

Record state : Type := mkstate { frame : locals; world : World }.

End World.

(** ** Computations that change a state and may raise *)

Definition M (S A : Type) : Type := S -> S * result A.

Global Instance M_ret {S} : MRet (M S) := fun A a s => (s, Ok a).
Global Instance M_bind {S} : MBind (M S) := fun A B f m s =>
  match m s with
  | (s', Ok a) => f a s'
  | (s', Raise e) => (s', Raise e)
  end.

Definition raise {S A} (e : exn) : M S A := fun s => (s, Raise e).
Definition lift {S A} (r : result A) : M S A := fun s => (s, r).
Definition modify {S} (f : S -> S) : M S unit := fun s => (f s, Ok tt).
Definition gets {S A} (f : S -> A) : M S A := fun s => (s, Ok (f s)).

(** [for x in l: body x] *)
Fixpoint for_each {S A} (l : list A) (body : A -> M S unit) : M S unit :=
  match l with
  | [] => mret tt
  | x :: l' => body x ;; for_each l' body
  end.

(** ** The GDAL calls and the file operations the program makes *)

Section Program.
Context `{Gdal}.

(** [gdal.Open(path, gdal.GA_ReadOnly)]: a handle on the dataset at
    [path], or [None].  A handle refers to the dataset by its path. *)
Definition gdal_Open (path : string) : M state (option string) := fun st =>
  let w := log (GdalOpen path) (world st) in
  (mkstate (frame st) w,
   Ok (if rasters w !! path is Some _ then Some path else None)).

(** Reading a property of an open dataset. *)
Definition dataset_get {A} (ds : string) (field : raster -> A) (dflt : A)
    : M state A :=
  gets (fun st => from_option field dflt (rasters (world st) !! ds)).

(** [gdal.GetDriverByName(name)] *)
Definition gdal_GetDriverByName (name : string) : M state (option string) :=
  fun st =>
    let w := log (GdalGetDriverByName name) (world st) in
    (mkstate (frame st) w, Ok (if envi_driver w then Some name else None)).

(** [driver.Create(path, width, height, bands, dtype)]: a fresh dataset
    replaces whatever was at [path]. *)
Definition driver_Create (path : string) (width height nbands : nat)
    (dtype : GDALDataType) : M state (option string) := fun st =>
  let w := log (GdalCreate path) (world st) in
  if creatable w path then
    let fresh :=
      mkraster width height dtype default_geotransform EmptyString
        (replicate nbands (blank width height dtype)) in
    (mkstate (frame st) (set_rasters <[path := fresh]> w), Ok (Some path))
  else (mkstate (frame st) w, Ok None).

(** An in-place change of an open dataset. *)
Definition dataset_update (ds : string) (f : raster -> raster)
    : M state unit :=
  modify (fun st => mkstate (frame st) (set_rasters (alter f ds) (world st))).

Definition SetGeoTransform (ds : string) (g : geotransform) : M state unit :=
  dataset_update ds (fun r =>
    mkraster (RasterXSize r) (RasterYSize r) (DataType r) g (Projection r)
      (bands r)).

Definition SetProjection (ds : string) (p : string) : M state unit :=
  dataset_update ds (fun r =>
    mkraster (RasterXSize r) (RasterYSize r) (DataType r) (GeoTransform r) p
      (bands r)).

(** [ds.GetRasterBand(band).ReadAsArray()]; bands are numbered from 1. *)
Definition ReadAsArray (ds : string) (band : nat) : M state (option pixels) :=
  gets (fun st => rasters (world st) !! ds ≫= fun r => bands r !! pred band).

(** [ds.GetRasterBand(band).WriteArray(data)] *)
Definition WriteArray (ds : string) (band : nat) (data : pixels)
    : M state unit :=
  dataset_update ds (fun r =>
    mkraster (RasterXSize r) (RasterYSize r) (DataType r) (GeoTransform r)
      (Projection r) (<[pred band := stored_as (DataType r) data]> (bands r))).

Definition time_vector_append (x : string) : M state unit :=
  modify (fun st =>
    mkstate (mklocals (output_files (frame st)) (time_vector (frame st) ++ [x]))
      (world st)).

Definition output_files_append (x : string) : M state unit :=
  modify (fun st =>
    mkstate (mklocals (output_files (frame st) ++ [x]) (time_vector (frame st)))
      (world st)).

(** ** [geotiff_to_envi] *)

Definition dtype_map : gmap string GDALDataType :=
  {[ "float32" := GDT_Float32; "int16" := GDT_Int16; "uint8" := GDT_Byte ]}.

(** Lines 61 and 62: where the converted raster goes. *)
Definition output_filename (geotiff_path : string) : string :=
  (PosixPath.splitext (PosixPath.basename geotiff_path)).1 +:+ ".img".

Definition output_path (output_folder geotiff_path : string) : string :=
  PosixPath.join output_folder (output_filename geotiff_path).

(** The body of the loop over the bands (lines 93 to 96). *)
Definition copy_band (src_ds dst_ds : string) (band : nat) : M state unit :=
  data ← ReadAsArray src_ds band;
  match data with
  | Some data => WriteArray dst_ds band data
  | None => mret tt
  end.

(** The body of the loop over [file_list], for one [geotiff_path].
    [dtype] is [dtype_map[output_dtype]]: the dict is never changed, so
    the subscript of line 83 finds what the test of line 49 found. *)
Definition convert_file (output_folder : string) (dtype : GDALDataType)
    (date_format : Re.regex) (geotiff_path : string) : M state unit :=
  date_str ← lift (extract_date_from_filename
                     (PosixPath.basename geotiff_path) date_format);
  time_vector_append date_str ;;
  let output_path := output_path output_folder geotiff_path in
  output_files_append output_path ;;
  src_ds ← gdal_Open geotiff_path;
  match src_ds with
  | None => raise (SourceOpenFailure geotiff_path)
  | Some src_ds =>
      width ← dataset_get src_ds RasterXSize O;
      height ← dataset_get src_ds RasterYSize O;
      nbands ← dataset_get src_ds RasterCount O;
      geotransform ← dataset_get src_ds GeoTransform default_geotransform;
      projection ← dataset_get src_ds Projection EmptyString;
      driver ← gdal_GetDriverByName "ENVI";
      match driver with
      | None => raise DriverUnavailable
      | Some _ =>
          dst_ds ← driver_Create output_path width height nbands dtype;
          match dst_ds with
          | None => raise (DestinationCreateFailure output_path)
          | Some dst_ds =>
              SetGeoTransform dst_ds geotransform ;;
              SetProjection dst_ds projection ;;
              for_each (seq 1 nbands) (copy_band src_ds dst_ds)
          end
      end
  end.

(** The function from its first statement to its [return], run on its
    own frame; the state it stops in is kept, also when it raises.  (The
    two lists are created after the test of the type; before that the
    frame shows them empty.) *)
Definition geotiff_to_envi_frame (file_list : list string)
    (output_folder output_dtype : string) (date_format : Re.regex)
    : M state (list string * list string) :=
  match dtype_map !! output_dtype with
  | None => raise (UnsupportedPixelType output_dtype)
  | Some dtype =>
      for_each file_list (convert_file output_folder dtype date_format) ;;
      output_files ← gets (fun st => output_files (frame st));
      time_vector ← gets (fun st => time_vector (frame st));
      mret (output_files, time_vector)
  end.

Definition new_frame (w : World) : state := mkstate (mklocals [] []) w.

(** The call as its caller sees it: the frame is gone when it ends. *)
Definition geotiff_to_envi (file_list : list string)
    (output_folder output_dtype : string) (date_format : Re.regex)
    : M World (list string * list string) := fun w =>
  let '(st, r) :=
    geotiff_to_envi_frame file_list output_folder output_dtype date_format
      (new_frame w) in
  (world st, r).

(** ** [read_file_list], [save_list_to_file] *)

Definition read_file_list (file_path : string) : M World (list string) :=
  fun w =>
    match files w !! file_path with
    | None => (w, Raise (MissingInputList file_path))
    | Some content =>
        (w, Ok (TextIO.splitlines (TextIO.universal_newlines content)))
    end.

Definition lines_text (data_list : list string) : string :=
  String.concat EmptyString
    (map (fun item => item +:+ TextIO.newline) data_list).

Definition save_list_to_file (data_list : list string) (file_path : string)
    : M World unit :=
  modify (fun w =>
    set_files <[file_path := lines_text data_list]>
      (log (FileWrite file_path) w)).

(** ** [main] *)

Record Args : Type := mkArgs {
  file_list_path : string;
  arg_output_folder : string;
  arg_output_dtype : string;
}.

Inductive py_class : Type := ValueError | FileNotFoundError | RuntimeError.

Definition class_of (e : exn) : py_class :=
  match e with
  | MissingInputList _ => FileNotFoundError
  | DateFormatNotFound _ => ValueError
  | InvalidDateValue _ => ValueError
  | UnsupportedPixelType _ => ValueError
  | SourceOpenFailure _ => FileNotFoundError
  | DriverUnavailable => RuntimeError
  | DestinationCreateFailure _ => RuntimeError
  end.

(** [isinstance(e, Exception)]: the three classes all derive from it. *)
Definition is_Exception (e : exn) : bool :=
  match class_of e with
  | ValueError | FileNotFoundError | RuntimeError => true
  end.

Definition is_FileNotFoundError (e : exn) : bool :=
  match class_of e with
  | FileNotFoundError => true
  | _ => false
  end.

Definition print (line : stdout_line) : M World unit :=
  modify (log (Stdout line)).

(** [main] after [parser.parse_args()], which has set the three fields
    of [args].  An [Ok] result is the function returning; a [Raise] is
    an exception leaving it. *)
Definition main (args : Args) : M World unit := fun w =>
  let file_list_path := file_list_path args in
  let output_folder := arg_output_folder args in
  let output_dtype := arg_output_dtype args in
  let date_format := date_format_main in
  match read_file_list file_list_path w with
  | (w, Raise e) =>
      if is_FileNotFoundError e
      then print (Msg_list_not_found file_list_path) w
      else (w, Raise e)
  | (w, Ok file_list) =>
      match geotiff_to_envi file_list output_folder output_dtype date_format w
      with
      | (w, Raise e) =>
          if is_Exception e
          then print (Msg_conversion_error e) w
          else (w, Raise e)
      | (w, Ok (output_files, time_vector)) =>
          let output_file_list_path :=
            PosixPath.join output_folder "ENVI_file_list.txt" in
          let time_vector_path :=
            PosixPath.join output_folder "time_vector.txt" in
          (save_list_to_file output_files output_file_list_path ;;
           save_list_to_file time_vector time_vector_path ;;
           print (Msg_output_files_saved output_file_list_path) ;;
           print (Msg_time_vector_saved time_vector_path)) w
      end
  end.

End Program.

(** ** Notions the statements about the program use *)

Section ProgramNotions.
Context `{Gdal}.

Definition with_bands (r : raster) (bs : list pixels) : raster :=
  mkraster (RasterXSize r) (RasterYSize r) (DataType r) (GeoTransform r)
    (Projection r) bs.

(** What a conversion leaves at the destination. *)
Definition converted (dtype : GDALDataType) (src : raster) : raster :=
  mkraster (RasterXSize src) (RasterYSize src) dtype (GeoTransform src)
    (Projection src) (stored_as dtype <$> bands src).

Definition appended (f : locals) (path tok : string) : locals :=
  mklocals (output_files f ++ [path]) (time_vector f ++ [tok]).

(** The date token of an input path, as the loop computes it. *)
Definition token_of (date_format : Re.regex) (geotiff_path : string)
    : result string :=
  extract_date_from_filename (PosixPath.basename geotiff_path) date_format.

Definition is_gdal_call (e : event) : bool :=
  match e with
  | GdalOpen _ | GdalGetDriverByName _ | GdalCreate _ => true
  | FileWrite _ | Stdout _ => false
  end.

(** The errors a file can fail with after its date was extracted. *)
Definition raster_errors (output_folder geotiff_path : string) : list exn :=
  [SourceOpenFailure geotiff_path; DriverUnavailable;
   DestinationCreateFailure (output_path output_folder geotiff_path)].

(** The calls and prints made between two states of the world. *)
Definition new_events (w w' : World) : list event :=
  drop (length (trace w)) (trace w').

Definition manifest_paths (output_folder : string) : string * string :=
  (PosixPath.join output_folder "ENVI_file_list.txt",
   PosixPath.join output_folder "time_vector.txt").

End ProgramNotions.

(** ** A small GDAL for examples

    Integer pixel arrays; storing into a band saturates at the range of
    the band type, as GDAL does for the integer types. *)

Definition clamp (lo hi v : Z) : Z := Z.max lo (Z.min hi v).

Definition IntGdal : Gdal := {|
  pixels := list (list Z);
  geotransform := list Z;
  default_geotransform := [0; 1; 0; 0; 0; 1];
  blank := fun width height _ => replicate height (replicate width 0);
  stored_as := fun dtype data =>
    match dtype with
    | GDT_Byte => map (map (clamp 0 255)) data
    | GDT_Int16 => map (map (clamp (-32768) 32767)) data
    | GDT_Float32 => data
    end;
|}.

Definition example_raster : @raster IntGdal :=
  mkraster (H := IntGdal) 2%nat 1%nat GDT_Int16 [100; 10; 0; 200; 0; -10]
    "EPSG:4326" [[[1; 300]]; [[-5; 7]]].

Definition example_world : @World IntGdal :=
  mkWorld (H := IntGdal) {[ "/data/scene_20230405_x.tif" := example_raster;
             "/other/scene_20230405_x.tif" := example_raster ]}
    true (fun _ => true)
    {[ "list.txt" := "/data/scene_20230405_x.tif" +:+ TextIO.newline
                      +:+ "/other/scene_20230405_x.tif" +:+ TextIO.newline ]}
    [].

(** Nothing on disk. *)
Definition empty_world : @World IntGdal :=
  mkWorld (H := IntGdal) ∅ true (fun _ => true) ∅ [].

(** A list file whose second input does not exist. *)
Definition broken_world : @World IntGdal :=
  mkWorld (H := IntGdal) {[ "/data/scene_20230405_x.tif" := example_raster ]}
    true (fun _ => true)
    {[ "list.txt" := "/data/scene_20230405_x.tif" +:+ TextIO.newline
                      +:+ "/data/scene_20230406_x.tif" +:+ TextIO.newline ]}
    [].

(** A list file with an empty second line. *)
Definition blank_line_world : @World IntGdal :=
  mkWorld (H := IntGdal) {[ "/data/scene_20230405_x.tif" := example_raster ]}
    true (fun _ => true)
    {[ "list.txt" := lines_text ["/data/scene_20230405_x.tif"; EmptyString;
                                 "/data/scene_20230405_x.tif"] ]}
    [].

(** ** The specification's wording, to compare the program with *)

Module Spec.

(** "an 8-digit substring": eight characters, all of them digits. *)
Definition is_8_digits (m : string) : bool :=
  (String.length m =? 8)%nat && PyStr.all_digits m.

(** "the first 8-digit substring": the window of eight characters at
    the least position where there is one. *)
Definition first_8_digit_substring (s : string) : option string :=
  head (filter (fun m => is_8_digits m = true)
          (map (fun i => String.substring i 8 s) (seq 0 (String.length s)))).

(** "[c] occurs in [s]" *)
Definition occurs (c : ascii) (s : string) : Prop :=
  ∃ a b, s = a +:+ String c b.

Fixpoint only (c : ascii) (s : string) : bool :=
  match s with
  | EmptyString => true
  | String a s' => Ascii.eqb a c && only c s'
  end.

(** "[ext] is the extension of the file name [b], and [root] the rest":
    the extension starts at the last dot, unless that dot has nothing
    but dots before it; then there is no extension. *)
Definition extension_split (b root ext : string) : Prop :=
  b = root +:+ ext ∧
  ((ext = EmptyString ∧ ∀ a e, b = a +:+ String "." e -> only "." a = true)
   ∨ (∃ e, ext = String "." e ∧ ¬ occurs "." e ∧ only "." root = false)).

(** "no run of 8 consecutive digits" *)
Definition no_8_digit_run (s : string) : Prop :=
  ∀ pre m post, s = pre +:+ m +:+ post -> is_8_digits m = false.

(** The number a string of decimal digits writes: each digit counts
    for its value times the power of ten of its place. *)
Fixpoint number (s : string) : N :=
  match s with
  | EmptyString => 0
  | String c s' =>
      PyStr.digit_val c * 10 ^ N.of_nat (String.length s') + number s'
  end%N.

Definition divides (k n : N) : bool := (n mod k =? 0)%N.

Definition leap_year (y : N) : bool :=
  divides 4 y && (negb (divides 100 y) || divides 400 y).

Definition days_in (y m : N) : N :=
  match m with
  | 1 | 3 | 5 | 7 | 8 | 10 | 12 => 31
  | 4 | 6 | 9 | 11 => 30
  | 2 => if leap_year y then 29 else 28
  | _ => 0
  end%N.

(** "parsing it as YYYYMMDD": four digits of year, two of month, two of
    day, which have to name a day of the calendar. *)
Definition parse_YYYYMMDD (m : string) : option (N * N * N) :=
  let y := number (String.substring 0 4 m) in
  let mo := number (String.substring 4 2 m) in
  let d := number (String.substring 6 2 m) in
  if ((1 <=? y) && (1 <=? mo) && (mo <=? 12)
      && (1 <=? d) && (d <=? days_in y mo))%N
  then Some (y, mo, d) else None.

(** The ordinal of a day within its year: the days of the months
    before it, and its day of the month. *)
Definition day_of_year (y mo d : N) : N :=
  (foldr N.add 0
     (map (fun k => days_in y (N.of_nat k)) (seq 1 (N.to_nat mo - 1)))
   + d)%N.

(** "year followed by day-of-year" *)
Definition year_doy (y mo d : N) : string :=
  PyStr.str y +:+ PyStr.format_03d (day_of_year y mo d).

Definition date_token (filename : string) : result string :=
  match first_8_digit_substring filename with
  | None => Raise (DateFormatNotFound filename)
  | Some m =>
      match parse_YYYYMMDD m with
      | None => Raise (InvalidDateValue m)
      | Some (y, mo, d) => Ok (year_doy y mo d)
      end
  end.

(** "a line": a text without a character that ends a line *)
Fixpoint no_line_break (s : string) : bool :=
  match s with
  | EmptyString => true
  | String c s' => negb (TextIO.is_line_boundary c) && no_line_break s'
  end.

End Spec.

(** ** Auxiliary notions of the date proofs *)

Module DateAux.

Import PyStr Re Datetime.

Definition digits : list ascii :=
  ["0"; "1"; "2"; "3"; "4"; "5"; "6"; "7"; "8"; "9"]%char.

(** What [strptime_Ymd] does once the year is matched: the month and
    day groups on the text [t] that is left. *)
Definition tail_stage (t : string) : option (string * string * string) :=
  matches re_m t (fun s2 => matches re_d s2 (fun s3 => Some (t, s2, s3))).

Definition tail_post (found : string * string * string) : option (N * N) :=
  let '(s1, s2, s3) := found in
  if negb (String.eqb s3 EmptyString) then None
  else
    m ← PyStr.int (consumed s1 s2);
    d ← PyStr.int (consumed s2 s3);
    Some (m, d).

Definition tail_expected (a b c d : ascii) : option (N * N) :=
  let m := (10 * digit_val a + digit_val b)%N in
  let dd := (10 * digit_val c + digit_val d)%N in
  if ((1 <=? m) && (m <=? 12) && (1 <=? dd) && (dd <=? 31))%N
  then Some (m, dd) else None.

Definition tail_check (a b c d : ascii) : bool :=
  bool_decide
    (tail_stage (String a (String b (String c (String d EmptyString)))) ≫= tail_post
     = tail_expected a b c d).
End DateAux.

(** ** A claim as the specification words it

    "When the conversion of a file fails, neither accumulated sequence
    contains an entry for that failed file": a failing iteration leaves
    the two lists as it found them. *)
Definition appends_only_after_success : Prop :=
  ∀ (G : Gdal) out dtype fmt geotiff_path (st st' : state) e,
    convert_file out dtype fmt geotiff_path st = (st', Raise e) ->
    frame st' = frame st.

(** ** Further notions

    What the properties beyond the claims are stated with. *)

Section MoreNotions.
Context `{Gdal}.


(** The GDAL calls of one conversion that runs to its end. *)
Definition calls_of (output_folder geotiff_path : string) : list event :=
  [GdalOpen geotiff_path; GdalGetDriverByName "ENVI";
   GdalCreate (output_path output_folder geotiff_path)].

End MoreNotions.

Section TextNotions.
(** The line end of a text written on Windows. *)
Definition crlf : string := String "013" (String "010" EmptyString).

(** The lines [ls], each followed by the line end [eol]. *)
Definition lines_with (eol : string) (ls : list string) : string :=
  String.concat EmptyString (map (fun l => l +:+ eol) ls).
End TextNotions.

Section FailureNotions.

(** What stops the conversion of one input, if anything does, among the
    datasets [existing]: the tests of the loop body in their order. *)
Definition failure_of (output_folder : string) (date_format : Re.regex)
    (driver : bool) (can_create : string -> bool) (existing : gset string)
    (geotiff_path : string) : option exn :=
  match token_of date_format geotiff_path with
  | Raise e => Some e
  | Ok _ =>
      if bool_decide (geotiff_path ∈ existing) then
        if driver then
          if can_create (output_path output_folder geotiff_path) then None
          else Some (DestinationCreateFailure
                       (output_path output_folder geotiff_path))
        else Some DriverUnavailable
      else Some (SourceOpenFailure geotiff_path)
  end.

(** The failure of the first input that has one; an input that is
    converted leaves its destination among the datasets. *)
Fixpoint first_failure (output_folder : string) (date_format : Re.regex)
    (driver : bool) (can_create : string -> bool) (existing : gset string)
    (file_list : list string) : option exn :=
  match file_list with
  | [] => None
  | geotiff_path :: rest =>
      match failure_of output_folder date_format driver can_create existing
              geotiff_path with
      | Some e => Some e
      | None =>
          first_failure output_folder date_format driver can_create
            ({[output_path output_folder geotiff_path]} ∪ existing) rest
      end
  end.

End FailureNotions.

Section MoreExamples.

(** A list written on Windows, its last line without a line end. *)
Definition crlf_world : @World IntGdal :=
  mkWorld (H := IntGdal) ∅ true (fun _ => true)
    {[ "list.txt" := "a_20230405.tif" +:+ crlf +:+ "b_20230406.tif" ]} [].

(** An input list without a line. *)
Definition empty_list_world : @World IntGdal :=
  mkWorld (H := IntGdal) {[ "/data/scene_20230405_x.tif" := example_raster ]}
    true (fun _ => true) {[ "list.txt" := EmptyString ]} [].

(** The second input is what the first one writes. *)
Definition chained_list : list string :=
  ["/data/scene_20230405_x.tif"; "out/scene_20230405_x.img";
   "/data/scene_20230406_x.tif"].

End MoreExamples.

(** * Facts about the string primitives *)

Module PyStrFacts.
Import PyStr.

Lemma str_app_nil_l (s : string) : EmptyString +:+ s = s.
Proof. reflexivity. Qed.

Lemma str_app_cons (c : ascii) (s t : string) :
  String c s +:+ t = String c (s +:+ t).
Proof. reflexivity. Qed.

Lemma str_app_nil_r (s : string) : s +:+ EmptyString = s.
Proof. induction s as [|c s IH]; [done|]. by rewrite str_app_cons, IH. Qed.

Lemma str_app_assoc (a b c : string) : (a +:+ b) +:+ c = a +:+ b +:+ c.
Proof. induction a as [|x a IH]; [done|]. by rewrite !str_app_cons, IH. Qed.

Lemma str_length_app (a b : string) :
  String.length (a +:+ b) = (String.length a + String.length b)%nat.
Proof. induction a as [|x a IH]; [done|]. rewrite str_app_cons. simpl. by rewrite IH. Qed.

Lemma str_take_drop (n : nat) (s : string) : take n s +:+ drop n s = s.
Proof.
  revert s. induction n as [|n IH]; intros [|c s]; try done.
  simpl. by rewrite str_app_cons, IH.
Qed.

Lemma str_length_take (n : nat) (s : string) :
  String.length (take n s) = (n `min` String.length s)%nat.
Proof. revert s. induction n as [|n IH]; intros [|c s]; simpl; auto. Qed.

Lemma str_length_drop (n : nat) (s : string) :
  String.length (drop n s) = (String.length s - n)%nat.
Proof. revert s. induction n as [|n IH]; intros [|c s]; simpl; auto. Qed.

Lemma str_take_app_length (a b : string) : take (String.length a) (a +:+ b) = a.
Proof.
  induction a as [|x a IH]; [by destruct b|].
  rewrite str_app_cons. simpl. by rewrite IH.
Qed.

Lemma str_drop_app_length (a b : string) : drop (String.length a) (a +:+ b) = b.
Proof. induction a as [|x a IH]; [done|]. by rewrite str_app_cons. Qed.

Lemma str_take_all (n : nat) (s : string) :
  (String.length s <= n)%nat -> take n s = s.
Proof.
  revert s. induction n as [|n IH]; intros [|c s]; simpl; try done; [lia|].
  intros Hle. f_equal. apply IH. lia.
Qed.

Lemma substring_0 (n : nat) (s : string) : String.substring 0 n s = take n s.
Proof. revert s. induction n as [|n IH]; intros [|c s]; simpl; try done. by rewrite IH. Qed.

Lemma substring_drop (i n : nat) (s : string) :
  String.substring i n s = take n (drop i s).
Proof.
  revert s. induction i as [|i IH]; intros s.
  - apply substring_0.
  - destruct s as [|c s]; simpl; [by destruct n|]. apply IH.
Qed.

Lemma index_nonneg (i : Z) (s : string) : 0 <= i -> index i s = Z.to_nat i.
Proof. intros Hi. unfold index. destruct (i <? 0) eqn:E; [lia|done]. Qed.

End PyStrFacts.

(** * Facts about paths *)

Module PathFacts.
Import PyStr PyStrFacts PosixPath Spec.

Lemma occurs_nil (c : ascii) : ¬ occurs c EmptyString.
Proof. intros ([|x a] & b & Heq); discriminate. Qed.

Lemma occurs_cons (c x : ascii) (s : string) :
  occurs c (String x s) ↔ x = c ∨ occurs c s.
Proof.
  split.
  - intros ([|y a] & b & Heq); rewrite ?str_app_nil_l, ?str_app_cons in Heq;
      injection Heq as -> ->; [by left|right; by exists a, b].
  - intros [->|(a & b & ->)]; [by exists EmptyString, s|by exists (String x a), b].
Qed.

Lemma occurs_app (c : ascii) (s t : string) :
  occurs c (s +:+ t) ↔ occurs c s ∨ occurs c t.
Proof.
  induction s as [|x s IH].
  - rewrite str_app_nil_l. split; [by right|]. intros [[]%occurs_nil|]; done.
  - rewrite str_app_cons, !occurs_cons, IH. tauto.
Qed.

(** What [rfind_from] returns: [-1] when the character is absent, and
    otherwise the index of its last occurrence. *)
Lemma rfind_from_spec (c : ascii) (s : string) (i : Z) :
  0 <= i ->
  (rfind_from i c s = -1 ∧ ¬ occurs c s)
  ∨ (∃ a b, s = a +:+ String c b ∧ ¬ occurs c b
            ∧ rfind_from i c s = i + Z.of_nat (String.length a)).
Proof.
  revert i. induction s as [|x s IH]; intros i Hi; simpl.
  - left. split; [done|apply occurs_nil].
  - destruct (IH (i + 1) ltac:(lia)) as [[-> Hno]|(a & b & -> & Hb & ->)].
    + simpl. destruct (Ascii.eqb_spec x c) as [->|Hne].
      * right. exists EmptyString, s. rewrite str_app_nil_l. simpl. split_and!; [done|done|lia].
      * left. split; [done|]. rewrite occurs_cons. tauto.
    + replace (0 <=? i + 1 + Z.of_nat (String.length a)) with true
        by (symmetry; apply Z.leb_le; lia).
      right. exists (String x a), b. rewrite str_app_cons. simpl String.length.
      split_and!; [done|done|lia].
Qed.

Lemma rfind_spec (c : ascii) (s : string) :
  (rfind c s = -1 ∧ ¬ occurs c s)
  ∨ (∃ a b, s = a +:+ String c b ∧ ¬ occurs c b
            ∧ rfind c s = Z.of_nat (String.length a)).
Proof.
  destruct (rfind_from_spec c s 0 ltac:(done)) as [?|(a & b & ? & ? & ?)]; [by left|].
  right. exists a, b. split_and!; [done|done|]. unfold rfind. lia.
Qed.

(** [basename] cuts after the last separator. *)
Lemma basename_spec (p : string) :
  ¬ occurs sep (basename p)
  ∧ (basename p = p ∨ ∃ dir, p = dir +:+ String sep (basename p)).
Proof.
  unfold basename, slice_from.
  destruct (rfind_spec sep p) as [[-> Hno]|(a & b & -> & Hb & ->)].
  - rewrite index_nonneg by done. simpl. auto.
  - rewrite index_nonneg by lia.
    replace (Z.to_nat (Z.of_nat (String.length a) + 1))
      with (String.length (a +:+ String sep EmptyString)).
    2:{ rewrite str_length_app. simpl. lia. }
    replace (a +:+ String sep b) with ((a +:+ String sep EmptyString) +:+ b).
    2:{ by rewrite str_app_assoc. }
    rewrite str_drop_app_length. split; [done|]. right. exists a.
    by rewrite str_app_assoc.
Qed.

Lemma basename_after_sep (dir name : string) :
  ¬ occurs sep name -> basename (dir +:+ String sep name) = name.
Proof.
  intros Hno. unfold basename, slice_from.
  destruct (rfind_spec sep (dir +:+ String sep name))
    as [[_ Habs]|(a & b & Heq & Hb & ->)].
  - destruct Habs. by exists dir, name.
  - rewrite index_nonneg by lia.
    assert (a = dir ∧ b = name) as [-> ->].
    { clear -Heq Hb Hno. revert a Heq.
      induction dir as [|x dir IH]; intros [|y a] Heq;
        rewrite ?str_app_nil_l, ?str_app_cons in Heq.
      - by injection Heq as ->.
      - injection Heq as <- ->. destruct Hno. by exists a, b.
      - injection Heq as -> <-. destruct Hb. by exists dir, name.
      - injection Heq as -> Heq. destruct (IH _ Heq) as [-> ->]. done. }
    replace (Z.to_nat (Z.of_nat (String.length dir) + 1))
      with (String.length (dir +:+ String sep EmptyString)).
    2:{ rewrite str_length_app. simpl. lia. }
    replace (dir +:+ String sep name) with ((dir +:+ String sep EmptyString) +:+ name).
    2:{ by rewrite str_app_assoc. }
    apply str_drop_app_length.
Qed.

Lemma basename_no_sep (name : string) :
  ¬ occurs sep name -> basename name = name.
Proof.
  intros Hno. destruct (basename_spec name) as [_ [?|[dir Heq]]]; [done|].
  destruct Hno. by exists dir, (basename name).
Qed.

Lemma drop_succ (k : nat) (p : string) (c : ascii) (rest : string) :
  drop k p = String c rest -> drop (S k) p = rest.
Proof.
  revert p. induction k as [|k IH]; intros [|x p]; simpl; try done.
  - by intros [= _ ->].
  - apply IH.
Qed.

Lemma drop_lt_cons (k : nat) (p : string) :
  (k < String.length p)%nat -> ∃ c rest, drop k p = String c rest.
Proof.
  revert p. induction k as [|k IH]; intros [|x p]; simpl; try lia; eauto.
  intros Hlt. apply IH. lia.
Qed.

Lemma only_app (c : ascii) (a b : string) :
  only c (a +:+ b) = only c a && only c b.
Proof.
  induction a as [|x a IH]; [done|]. rewrite str_app_cons. simpl.
  rewrite IH. by rewrite andb_assoc.
Qed.

Lemma only_not_occurs (c d : ascii) (s : string) :
  only c s = true -> d ≠ c -> ¬ occurs d s.
Proof.
  induction s as [|x s IH]; simpl; intros Ho Hne.
  - apply occurs_nil.
  - apply andb_true_iff in Ho as [Hx Hs]. apply Ascii.eqb_eq in Hx as ->.
    rewrite occurs_cons. intros [?|?]; [done|]. by apply IH.
Qed.

(** The loop of [_splitext] looks for a character that is not a dot
    among the [n] characters from [filenameIndex] on. *)
Lemma splitext_loop_spec (n : nat) (fi di : Z) (p : string) :
  0 <= fi -> (Z.to_nat fi + n <= String.length p)%nat ->
  splitext_loop n fi di p =
    if only extsep (take n (drop (Z.to_nat fi) p)) then None
    else Some (slice_to di p, slice_from di p).
Proof.
  revert fi. induction n as [|n IH]; intros fi Hfi Hlen; [done|].
  destruct (drop_lt_cons (Z.to_nat fi) p) as (c & rest & Hd); [lia|].
  simpl splitext_loop. unfold slice.
  rewrite !index_nonneg by lia.
  replace (Z.to_nat (fi + 1) - Z.to_nat fi)%nat with 1%nat by lia.
  rewrite Hd. simpl take. simpl only.
  rewrite IH by lia.
  replace (Z.to_nat (fi + 1)) with (S (Z.to_nat fi)) by lia.
  rewrite (drop_succ _ _ _ _ Hd).
  simpl String.eqb. destruct (Ascii.eqb c extsep); done.
Qed.

(** Two ways to cut one string before a [c], the second at the last
    [c]: the first cut is not later than the second. *)
Lemma cut_before_last (c : ascii) (a e pre post : string) :
  a +:+ String c e = pre +:+ String c post -> ¬ occurs c post ->
  ∃ mid, pre = a +:+ mid.
Proof.
  revert pre. induction a as [|x a IH]; intros pre Heq Hpost.
  - by exists pre.
  - destruct pre as [|y pre]; rewrite ?str_app_nil_l, ?str_app_cons in Heq.
    + injection Heq as -> <-. destruct Hpost. by exists a, e.
    + injection Heq as -> Heq. destruct (IH _ Heq Hpost) as [mid ->].
      by exists mid.
Qed.

(** [splitext] on a file name (no separator in it) splits off the
    extension. *)
Lemma splitext_spec (b : string) :
  ¬ occurs sep b ->
  extension_split b (splitext b).1 (splitext b).2.
Proof.
  intros Hsep. unfold splitext.
  destruct (rfind_spec sep b) as [[-> _]|(a & b' & -> & _)].
  2:{ destruct Hsep. by exists a, b'. }
  unfold slice_to at 1 2. rewrite index_nonneg by done. simpl take.
  destruct (rfind_spec extsep b) as [[-> Hno]|(pre & post & -> & Hpost & ->)].
  - simpl. split; [by rewrite str_app_nil_r|]. left. split; [done|].
    intros a e ->. destruct Hno. by exists a, e.
  - replace (-1 <? Z.of_nat (String.length pre)) with true
      by (symmetry; apply Z.ltb_lt; lia).
    rewrite splitext_loop_spec; [|lia|rewrite str_length_app; simpl; lia].
    replace (Z.to_nat (Z.of_nat (String.length pre) - (-1 + 1)))
      with (String.length pre) by lia.
    simpl Z.to_nat. simpl drop. rewrite str_take_app_length.
    destruct (only extsep pre) eqn:Hpre.
    + simpl. split; [by rewrite str_app_nil_r|]. left. split; [done|].
      intros a e Heq. symmetry in Heq.
      destruct (cut_before_last _ _ _ _ _ Heq Hpost) as [mid ->].
      rewrite only_app in Hpre. by apply andb_true_iff in Hpre as [? _].
    + unfold slice_to, slice_from. rewrite index_nonneg by lia.
      rewrite Nat2Z.id, str_take_app_length, str_drop_app_length. simpl.
      split; [done|]. right. by exists post.
Qed.

Lemma endswith_spec (c : ascii) (a : string) :
  endswith c a = true -> ∃ a', a = a' +:+ String c EmptyString.
Proof.
  induction a as [|x a IH]; [done|]. simpl. destruct a as [|y a].
  - intros ->%Ascii.eqb_eq. by exists EmptyString.
  - intros [a' ->]%IH. by exists (String x a').
Qed.

Lemma startswith_occurs (c : ascii) (s : string) :
  ¬ occurs c s -> startswith c s = false.
Proof.
  destruct s as [|x s]; [done|]. simpl. intros Hno.
  apply Ascii.eqb_neq. intros ->. destruct Hno. by exists EmptyString, s.
Qed.

(** Joining a directory and a name without a separator gives a path
    whose last component is that name. *)
Lemma join_name (dir name : string) :
  ¬ occurs sep name ->
  join dir name =
    dir +:+ (if (dir =? EmptyString)%string || endswith sep dir then EmptyString
             else String sep EmptyString) +:+ name
  ∧ basename (join dir name) = name.
Proof.
  intros Hno. unfold join. rewrite startswith_occurs by done.
  destruct (String.eqb_spec dir EmptyString) as [->|Hne]; simpl.
  - split; [done|]. rewrite str_app_nil_l. by apply basename_no_sep.
  - destruct (endswith sep dir) eqn:He.
    + split; [done|]. apply endswith_spec in He as [a' ->].
      rewrite str_app_assoc, str_app_cons, str_app_nil_l. by apply basename_after_sep.
    + split; [done|]. by apply basename_after_sep.
Qed.

End PathFacts.

(** * Facts about the regular expressions *)

Module ReFacts.
Import PyStr PyStrFacts Re.

(** A match that succeeds ends in a call of the continuation. *)
Lemma matches_Some {A} (r : regex) (s : string) (k : string -> option A) x :
  matches r s k = Some x -> ∃ rest, k rest = Some x.
Proof.
  revert s k. induction r as [|lo hi|r1 IH1 r2 IH2|r1 IH1 r2 IH2];
    intros s k; simpl.
  - eauto.
  - destruct s as [|c s]; [done|]. destruct (in_range lo hi c); [eauto|done].
  - intros (s1 & Hk)%IH1. eauto.
  - destruct (matches r1 s k) eqn:E; [intros [= <-]|]; eauto.
Qed.

Lemma in_range_digit (c : ascii) : in_range "0" "9" c = is_digit c.
Proof. reflexivity. Qed.

(** [\d{n}] takes [n] digits, and there is one way to do it. *)
Lemma matches_repeat_digit {A} (n : nat) (s : string) (k : string -> option A) :
  matches (Repeat n Digit) s k =
    if (String.length (take n s) =? n)%nat && all_digits (take n s)
    then k (drop n s) else None.
Proof.
  revert s. induction n as [|n IH]; intros s; [done|].
  simpl. destruct s as [|c s]; [done|].
  rewrite in_range_digit, IH. simpl.
  destruct (is_digit c); [done|]. by rewrite andb_false_r.
Qed.

Lemma match_digits8 (s : string) :
  match_ date_format_main s =
    if Spec.is_8_digits (take 8 s) then Some (take 8 s) else None.
Proof.
  unfold match_, date_format_main. rewrite matches_repeat_digit.
  unfold Spec.is_8_digits.
  destruct (Nat.eqb_spec (String.length (take 8 s)) 8) as [Hlen|];
    cbn [andb]; [|done].
  destruct (all_digits (take 8 s)); [|done].
  unfold consumed. rewrite str_length_take in Hlen. rewrite str_length_drop.
  do 2 f_equal. lia.
Qed.

(** [re.search] with [\d{8}] finds the first window of eight digits. *)
Lemma search_digits8 (s : string) :
  search date_format_main s = Spec.first_8_digit_substring s.
Proof.
  unfold Spec.first_8_digit_substring.
  induction s as [|c s IH].
  - reflexivity.
  - cbn [search]. rewrite match_digits8.
    cbn [String.length]. rewrite <- cons_seq, <- fmap_S_seq. cbn [map].
    rewrite substring_0, filter_cons.
    destruct (Spec.is_8_digits (take 8 (String c s))) eqn:E.
    + rewrite decide_True by done. done.
    + rewrite decide_False by (by intros ?). rewrite IH.
      do 2 f_equal. rewrite <- list_fmap_compose. done.
Qed.

(** The declarative reading of "no run of 8 digits". *)
Lemma no_run_search (s : string) :
  Spec.no_8_digit_run s ↔ search date_format_main s = None.
Proof.
  split.
  - intros Hno. induction s as [|c s IH].
    + reflexivity.
    + cbn [search]. rewrite match_digits8.
      rewrite (Hno EmptyString (take 8 (String c s)) (drop 8 (String c s))).
      2:{ by rewrite str_app_nil_l, str_take_drop. }
      apply IH. intros pre m post ->. apply (Hno (String c pre) m post).
      by rewrite str_app_cons.
  - induction s as [|c s IH]; intros Hs pre m post Heq.
    + destruct pre, m; rewrite ?str_app_nil_l, ?str_app_cons in Heq; done.
    + cbn [search] in Hs. rewrite match_digits8 in Hs.
      destruct (Spec.is_8_digits (take 8 (String c s))) eqn:E; [done|].
      destruct pre as [|x pre]; rewrite ?str_app_nil_l, ?str_app_cons in Heq.
      * destruct (Spec.is_8_digits m) eqn:Em; [|done].
        assert (take 8 (String c s) = m) as Ht.
        { pose proof Em as Hl. unfold Spec.is_8_digits in Hl.
          apply andb_true_iff in Hl as [Hl _]. apply Nat.eqb_eq in Hl.
          rewrite Heq, <- Hl. apply str_take_app_length. }
        congruence.
      * injection Heq as -> ->. by apply (IH Hs pre m post).
Qed.

End ReFacts.

(** * Facts about dates *)

Module DateFacts.
Import PyStr PyStrFacts Re ReFacts Datetime DateAux.

Lemma is_digit_cases (c : ascii) : is_digit c = true -> c ∈ digits.
Proof.
  destruct c as [[] [] [] [] [] [] [] []]; intros Hd;
    try discriminate Hd; unfold digits; set_solver.
Qed.

Lemma tail_all :
  forallb (fun a => forallb (fun b => forallb (fun c => forallb (fun d =>
    tail_check a b c d) digits) digits) digits) digits = true.
Proof. vm_compute. reflexivity. Qed.

Lemma tail_exhaustive (a b c d : ascii) :
  is_digit a = true -> is_digit b = true ->
  is_digit c = true -> is_digit d = true ->
  tail_stage (String a (String b (String c (String d EmptyString)))) ≫= tail_post
  = tail_expected a b c d.
Proof.
  intros Ha%is_digit_cases%list_elem_of_In Hb%is_digit_cases%list_elem_of_In
    Hc%is_digit_cases%list_elem_of_In Hd%is_digit_cases%list_elem_of_In.
  pose proof tail_all as H.
  rewrite forallb_forall in H. specialize (H _ Ha).
  rewrite forallb_forall in H. specialize (H _ Hb).
  rewrite forallb_forall in H. specialize (H _ Hc).
  rewrite forallb_forall in H. specialize (H _ Hd).
  by apply bool_decide_eq_true in H.
Qed.

Lemma digit_val_bound (c : ascii) : is_digit c = true -> (digit_val c <= 9)%N.
Proof.
  intros Hc%is_digit_cases. unfold digits in Hc.
  repeat (apply elem_of_cons in Hc as [->|Hc]; [by vm_compute|]).
  by apply elem_of_nil in Hc.
Qed.

Lemma lstrip_digit (c : ascii) (s : string) :
  is_digit c = true -> lstrip_blank (String c s) = String c s.
Proof.
  intros Hc%is_digit_cases. unfold digits in Hc.
  repeat (apply elem_of_cons in Hc as [->|Hc]; [done|]).
  by apply elem_of_nil in Hc.
Qed.

(** [int] reads a digit string by Horner's rule; the result is the
    number the digits write. *)
Lemma int_digits_number (s : string) (acc : N) :
  all_digits s = true ->
  int_digits acc s
  = Some (acc * 10 ^ N.of_nat (String.length s) + Spec.number s)%N.
Proof.
  revert acc. induction s as [|c s IH]; intros acc Hs; simpl.
  - f_equal. lia.
  - simpl in Hs. apply andb_true_iff in Hs as [-> Hs]. rewrite IH by done.
    f_equal. rewrite Nat2N.inj_succ, N.pow_succ_r'. lia.
Qed.

Lemma int_number (c : ascii) (s : string) :
  all_digits (String c s) = true ->
  int (String c s) = Some (Spec.number (String c s)).
Proof.
  intros Hs. unfold int. pose proof Hs as [Hc _]%andb_true_iff.
  rewrite lstrip_digit by done. rewrite int_digits_number by done.
  f_equal.
Qed.

Lemma is_leap_spec (y : N) : _is_leap y = Spec.leap_year y.
Proof. reflexivity. Qed.

Lemma month_cases (m : N) :
  (1 <= m <= 12)%N -> m ∈ [1; 2; 3; 4; 5; 6; 7; 8; 9; 10; 11; 12]%N.
Proof.
  intros Hm.
  assert (m = N.of_nat (N.to_nat m)) as -> by lia.
  assert (1 <= N.to_nat m <= 12)%nat as Hn by lia.
  destruct (N.to_nat m) as [|[|[|[|[|[|[|[|[|[|[|[|[|n]]]]]]]]]]]]];
    try lia; apply list_elem_of_In; simpl; tauto.
Qed.

(** The tables of [datetime] agree with the calendar. *)
Lemma days_in_month_spec (y m : N) :
  (1 <= m <= 12)%N -> _days_in_month y m = Spec.days_in y m.
Proof.
  intros Hm%month_cases. unfold _days_in_month. rewrite is_leap_spec.
  repeat (apply elem_of_cons in Hm as [->|Hm];
          [simpl; by destruct (Spec.leap_year y)|]).
  by apply elem_of_nil in Hm.
Qed.

Lemma tm_yday_spec (y m d : N) :
  (1 <= m <= 12)%N ->
  tm_yday (mkdate y m d) = Spec.day_of_year y m d.
Proof.
  intros Hm%month_cases. unfold tm_yday, _days_before_month, Spec.day_of_year.
  rewrite is_leap_spec. simpl year; simpl month; simpl day.
  repeat (apply elem_of_cons in Hm as [->|Hm];
          [vm_compute N.to_nat; simpl; destruct (Spec.leap_year y); simpl; lia|]).
  by apply elem_of_nil in Hm.
Qed.

Lemma eight_digits (m : string) :
  Spec.is_8_digits m = true ->
  ∃ c1 c2 c3 c4 c5 c6 c7 c8,
    m = String c1 (String c2 (String c3 (String c4
          (String c5 (String c6 (String c7 (String c8 EmptyString)))))))
    ∧ is_digit c1 = true ∧ is_digit c2 = true ∧ is_digit c3 = true
    ∧ is_digit c4 = true ∧ is_digit c5 = true ∧ is_digit c6 = true
    ∧ is_digit c7 = true ∧ is_digit c8 = true.
Proof.
  unfold Spec.is_8_digits. intros [Hl Hd]%andb_true_iff.
  apply Nat.eqb_eq in Hl.
  destruct m as [|c1 [|c2 [|c3 [|c4 [|c5 [|c6 [|c7 [|c8 [|]]]]]]]]];
    try discriminate Hl.
  simpl in Hd. repeat (apply andb_true_iff in Hd as [? Hd]).
  exists c1, c2, c3, c4, c5, c6, c7, c8. done.
Qed.

Lemma tail_stage_fst (t : string) found :
  tail_stage t = Some found -> found.1.1 = t.
Proof.
  unfold tail_stage. intros (s2 & (s3 & [= <-])%matches_Some)%matches_Some.
  done.
Qed.

Lemma days_in_le (y m : N) : (Spec.days_in y m <= 31)%N.
Proof.
  unfold Spec.days_in.
  repeat case_match; lia.
Qed.

(** On eight digits, [strptime] with [%Y%m%d] is the plain reading:
    year, month and day at fixed places, accepted when they name a day. *)
Lemma strptime_8_digits (m : string) :
  Spec.is_8_digits m = true ->
  (fun dt => (year dt, month dt, day dt)) <$> strptime_Ymd m
  = Spec.parse_YYYYMMDD m.
Proof.
  intros (c1 & c2 & c3 & c4 & c5 & c6 & c7 & c8 & -> & H1 & H2 & H3 & H4
          & H5 & H6 & H7 & H8)%eight_digits.
  set (t := String c5 (String c6 (String c7 (String c8 EmptyString)))).
  pose (ys := String c1 (String c2 (String c3 (String c4 EmptyString)))).
  assert (strptime_Ymd (String c1 (String c2 (String c3 (String c4 t))))
          = tail_expected c5 c6 c7 c8
            ≫= fun md => new (Spec.number ys) md.1 md.2) as ->.
  { unfold strptime_Ymd, re_Y. rewrite matches_repeat_digit.
    cbn [ys t String.append take drop String.length Nat.eqb all_digits].
    rewrite H1, H2, H3, H4. cbn [andb]. fold t.
    rewrite <- (tail_exhaustive c5 c6 c7 c8) by done. fold t.
    change (matches re_m t _) with (tail_stage t).
    destruct (tail_stage t) as [[[s1 s2] s3]|] eqn:Et; [|done].
    apply tail_stage_fst in Et as Hs1. simpl in Hs1. subst s1.
    cbn [mbind option_bind tail_post].
    destruct (negb (s3 =? EmptyString)%string); [done|].
    assert (consumed (String c1 (String c2 (String c3 (String c4 t)))) t = ys)
      as ->.
    { unfold consumed. subst t ys. reflexivity. }
    unfold ys at 1. rewrite (int_number c1) by (simpl; by rewrite H1, H2, H3, H4).
    fold ys.
    cbn [mbind option_bind].
    destruct (int (consumed t s2)) as [mo|]; [|done]. cbn [mbind option_bind].
    destruct (int (consumed s2 s3)) as [d|]; done. }
  unfold tail_expected, Spec.parse_YYYYMMDD.
  cbn [ys t String.append String.substring].
  set (y := Spec.number _). set (mo' := Spec.number _). set (d' := Spec.number _).
  assert (mo' = 10 * digit_val c5 + digit_val c6)%N as Hmo.
  { subst mo'. simpl. lia. }
  assert (d' = 10 * digit_val c7 + digit_val c8)%N as Hd.
  { subst d'. simpl. lia. }
  rewrite <- Hmo, <- Hd.
  assert (y <= 9999)%N as Hy.
  { subst y. simpl.
    pose proof (digit_val_bound _ H1). pose proof (digit_val_bound _ H2).
    pose proof (digit_val_bound _ H3). pose proof (digit_val_bound _ H4).
    lia. }
  pose proof (days_in_le y mo').
  destruct (N.leb_spec 1 mo'), (N.leb_spec mo' 12); cbn [andb];
    try (by rewrite ?andb_false_r).
  - pose proof (days_in_month_spec y mo' ltac:(lia)) as Hdim.
    rewrite <- Hdim in *.
    unfold new, check_date_fields, MINYEAR, MAXYEAR.
    destruct (N.leb_spec 1 d'), (N.leb_spec d' 31);
      cbn [andb mbind option_bind fst snd];
      destruct (N.leb_spec 1 y), (N.leb_spec y 9999),
        (N.leb_spec d' (_days_in_month y mo'));
      repeat match goal with
             | |- context [(?a <=? ?b)%N] => destruct (N.leb_spec a b)
             end;
      cbn [andb fmap option_fmap option_map year month day];
      try done; lia.
Qed.

End DateFacts.

(** * Facts about text files *)

Module TextFacts.
Import PyStrFacts TextIO Spec.

Lemma rev_app_app (a b l : string) :
  String.rev_app a b +:+ l = String.rev_app a (b +:+ l).
Proof. revert b. induction a as [|x a IH]; intros b; [done|]. cbn. by rewrite IH. Qed.

Lemma universal_newlines_cons (c : ascii) (s : string) :
  is_line_boundary c = false ->
  universal_newlines (String c s) = String c (universal_newlines s).
Proof. destruct c as [[] [] [] [] [] [] [] []]; done. Qed.

Lemma universal_newlines_line (l rest : string) :
  Spec.no_line_break l = true ->
  universal_newlines (l +:+ newline +:+ rest)
  = l +:+ newline +:+ universal_newlines rest.
Proof.
  induction l as [|c l IH]; intros Hl; [done|].
  cbn in Hl. apply andb_true_iff in Hl as [Hc Hl]. apply negb_true_iff in Hc.
  rewrite !str_app_cons, universal_newlines_cons by done. by rewrite IH.
Qed.

Lemma splitlines_go_line (l rest : string) (cur : option string) :
  Spec.no_line_break l = true ->
  splitlines_go cur (l +:+ newline +:+ rest)
  = (String.rev (default EmptyString cur) +:+ l) :: splitlines_go None rest.
Proof.
  revert cur. induction l as [|c l IH]; intros cur Hl.
  - cbn. by rewrite str_app_nil_r.
  - cbn in Hl. apply andb_true_iff in Hl as [Hc Hl]. apply negb_true_iff in Hc.
    rewrite str_app_cons. cbn [splitlines_go]. rewrite Hc, IH by done.
    f_equal. cbn [default]. unfold String.rev. cbn [String.rev_app].
    by rewrite !rev_app_app.
Qed.

Lemma lines_text_cons (l : string) (ls : list string) :
  lines_text (l :: ls) = l +:+ newline +:+ lines_text ls.
Proof.
  unfold lines_text. cbn [map]. destruct ls as [|l' ls]; cbn.
  - by rewrite str_app_nil_r.
  - by rewrite str_app_assoc.
Qed.

(** Reading back what [save_list_to_file] writes gives the list: every
    entry is a line of its own, the empty ones too. *)
Lemma splitlines_lines_text (ls : list string) :
  Forall (fun l => Spec.no_line_break l = true) ls ->
  splitlines (universal_newlines (lines_text ls)) = ls.
Proof.
  unfold splitlines. induction 1 as [|l ls Hl _ IH]; [done|].
  rewrite lines_text_cons, universal_newlines_line, splitlines_go_line by done.
  by rewrite IH.
Qed.
End TextFacts.

(** * Facts about the program *)

Ltac red_world :=
  cbn [world frame log rasters envi_driver creatable files trace
       set_rasters output_files time_vector from_option].

Ltac run :=
  unfold mbind, M_bind, mret, M_ret, raise, lift, modify, gets; cbn beta iota.

Section BandLoop.
Context `{Gdal}.
Local Open Scope nat_scope.

Lemma with_bands_id (r : raster) : with_bands r (bands r) = r.
Proof. by destruct r. Qed.

Lemma for_each_cons {S A} (x : A) (l : list A) (body : A -> M S unit) (st : S) :
  for_each (x :: l) body st
  = match body x st with
    | (s', Ok _) => for_each l body s'
    | (s', Raise e) => (s', Raise e)
    end.
Proof. reflexivity. Qed.

Lemma copy_band_run (src dst : string) (band : nat) f m drv cr fl tr :
  copy_band src dst band (mkstate f (mkWorld m drv cr fl tr))
  = match m !! src ≫= fun r => bands r !! pred band with
    | Some data =>
        (mkstate f
           (mkWorld
              (alter (fun r => with_bands r
                        (<[pred band := stored_as (DataType r) data]> (bands r)))
                 dst m) drv cr fl tr), Ok tt)
    | None => (mkstate f (mkWorld m drv cr fl tr), Ok tt)
    end.
Proof.
  unfold copy_band, ReadAsArray, WriteArray, dataset_update. run.
  cbn [world rasters frame]. by case_match.
Qed.

(** The band loop changes the destination dataset and nothing else. *)
Lemma band_loop_frame (l : list nat) (src dst : string) f m drv cr fl tr r :
  m !! dst = Some r ->
  ∃ bs,
    for_each l (copy_band src dst) (mkstate f (mkWorld m drv cr fl tr))
    = (mkstate f (mkWorld (<[dst := with_bands r bs]> m) drv cr fl tr), Ok tt)
    ∧ length bs = length (bands r).
Proof.
  revert m r. induction l as [|band l IH]; intros m r Hr.
  - exists (bands r). rewrite with_bands_id, insert_id by done. done.
  - rewrite for_each_cons, copy_band_run.
    destruct (m !! src ≫= fun r => bands r !! pred band) as [data|].
    + destruct (IH (alter (fun r => with_bands r
                   (<[pred band := stored_as (DataType r) data]> (bands r))) dst m)
                  (with_bands r
                     (<[pred band := stored_as (DataType r) data]> (bands r))))
        as (bs & Hrun & Hlen).
      { by rewrite lookup_alter_eq, Hr. }
      exists bs. rewrite Hrun, insert_alter_eq. split; [done|].
      rewrite Hlen. cbn. by rewrite length_insert.
    + destruct (IH m r Hr) as (bs & Hrun & Hlen). exists bs. by rewrite Hrun.
Qed.

(** When the source is another dataset, band [i] of the destination
    ends up holding band [i] of the source, stored at the type of the
    destination. *)
Lemma band_loop_copy (k a : nat) (src dst : string) f m drv cr fl tr s r :
  src ≠ dst -> m !! src = Some s -> m !! dst = Some r ->
  length (bands r) = length (bands s) -> a + k = length (bands s) ->
  for_each (seq (S a) k) (copy_band src dst) (mkstate f (mkWorld m drv cr fl tr))
  = (mkstate f
       (mkWorld (<[dst := with_bands r
                    (take a (bands r)
                     ++ (stored_as (DataType r) <$> drop a (bands s)))]> m)
          drv cr fl tr),
     Ok tt).
Proof.
  revert a m r. induction k as [|k IH]; intros a m r Hne Hs Hr Hlen Hak.
  - cbn [seq for_each]. run. do 3 f_equal.
    rewrite drop_ge by lia. rewrite fmap_nil, app_nil_r.
    rewrite take_ge by lia. rewrite with_bands_id. by rewrite insert_id.
  - cbn [seq]. rewrite for_each_cons, copy_band_run. cbn [Nat.pred].
    rewrite Hs. cbn [mbind option_bind].
    destruct (lookup_lt_is_Some_2 (bands s) a) as [x Hx]; [lia|].
    rewrite Hx.
    rewrite IH
      with (r := with_bands r (<[a := stored_as (DataType r) x]> (bands r))).
    + do 3 f_equal. rewrite insert_alter_eq. f_equal.
      unfold with_bands. cbn. f_equal.
      rewrite (drop_S _ _ _ Hx), fmap_cons, cons_middle, app_assoc. f_equal.
      rewrite take_insert_lt by lia.
      destruct (lookup_lt_is_Some_2 (bands r) a) as [y Hy]; [lia|].
      rewrite (take_S_r _ _ _ Hy).
      rewrite insert_app_r_alt by (rewrite length_take; lia).
      rewrite length_take. replace (a - a `min` length (bands r)) with 0 by lia.
      done.
    + done.
    + by rewrite lookup_alter_ne.
    + by rewrite lookup_alter_eq, Hr.
    + cbn. by rewrite length_insert.
    + lia.
Qed.

End BandLoop.

Section Step.
Context `{Gdal}.
Local Open Scope nat_scope.

(** One iteration of the loop over the files, case by case. *)
Lemma convert_file_step out dtype fmt p f m drv cr fl tr :
  let st := mkstate f (mkWorld m drv cr fl tr) in
  let d := output_path out p in
  match extract_date_from_filename (PosixPath.basename p) fmt with
  | Raise e => convert_file out dtype fmt p st = (st, Raise e)
  | Ok tok =>
      let f' := appended f d tok in
      let tr1 := tr ++ [GdalOpen p] in
      match m !! p with
      | None =>
          convert_file out dtype fmt p st
          = (mkstate f' (mkWorld m drv cr fl tr1), Raise (SourceOpenFailure p))
      | Some src =>
          let tr2 := tr1 ++ [GdalGetDriverByName "ENVI"] in
          if drv then
            let tr3 := tr2 ++ [GdalCreate d] in
            if cr d then
              ∃ bs,
                convert_file out dtype fmt p st
                = (mkstate f'
                     (mkWorld (<[d := with_bands (converted dtype src) bs]> m)
                        drv cr fl tr3), Ok tt)
                ∧ length bs = length (bands src)
                ∧ (p ≠ d -> bs = (stored_as dtype <$> bands src))
            else
              convert_file out dtype fmt p st
              = (mkstate f' (mkWorld m drv cr fl tr3),
                 Raise (DestinationCreateFailure d))
          else
            convert_file out dtype fmt p st
            = (mkstate f' (mkWorld m drv cr fl tr2), Raise DriverUnavailable)
      end
  end.
Proof.
  intros st d. unfold convert_file. fold d.
  destruct (extract_date_from_filename _ fmt) as [tok|e]; [|by run].
  unfold time_vector_append, output_files_append, gdal_Open, dataset_get,
    gdal_GetDriverByName, driver_Create, SetGeoTransform, SetProjection,
    dataset_update.
  run. subst st.
  red_world.
  destruct (m !! p) as [src|] eqn:Hp; [|done].
  red_world. rewrite Hp. red_world.
  destruct drv; red_world; [|done].
  destruct (cr d) eqn:Hcr; red_world; rewrite ?Hcr; red_world; [|done].
  unfold set_rasters, log. red_world.
  rewrite !alter_insert_eq. cbn [RasterXSize RasterYSize DataType GeoTransform Projection bands].
  set (r0 := mkraster _ _ _ _ _ _).
  destruct (decide (p = d)) as [Heq|Hne].
  - destruct (band_loop_frame (seq 1 (RasterCount src)) p d
                (appended f d tok) (<[d := r0]> m) true cr fl
                (((tr ++ [GdalOpen p]) ++ [GdalGetDriverByName "ENVI"])
                   ++ [GdalCreate d]) r0) as (bs & Hrun & Hlen).
    { apply lookup_insert_eq. }
    exists bs. unfold appended in Hrun. rewrite Hrun, insert_insert_eq.
    split_and!; [done| |done].
    rewrite Hlen. subst r0. cbn. apply length_replicate.
  - exists (stored_as dtype <$> bands src).
    rewrite band_loop_copy with (a := 0) (s := src) (r := r0).
    + rewrite insert_insert_eq. split_and!; [|by rewrite length_fmap|done].
      subst r0. cbn. by rewrite drop_0.
    + done.
    + by rewrite lookup_insert_ne.
    + apply lookup_insert_eq.
    + subst r0. cbn. apply length_replicate.
    + done.
Qed.
End Step.

Section Loop.
Context `{Gdal}.
Local Open Scope nat_scope.

(** What an iteration leaves alone, whatever its outcome. *)
Lemma convert_file_world out dtype fmt p st :
  let '(st', _) := convert_file out dtype fmt p st in
  files (world st') = files (world st)
  ∧ envi_driver (world st') = envi_driver (world st)
  ∧ creatable (world st') = creatable (world st)
  ∧ ∃ evs, trace (world st') = trace (world st) ++ evs
           ∧ forallb is_gdal_call evs = true.
Proof.
  destruct st as [f [m drv cr fl tr]].
  pose proof (convert_file_step out dtype fmt p f m drv cr fl tr) as Hstep.
  cbv zeta in Hstep.
  destruct (extract_date_from_filename _ fmt) as [tok|e].
  2:{ rewrite Hstep. cbn. split_and!; try done. exists []. by rewrite app_nil_r. }
  destruct (m !! p) as [src|].
  2:{ rewrite Hstep. cbn. split_and!; try done. by eexists [_]. }
  destruct drv.
  2:{ rewrite Hstep. cbn. split_and!; try done. exists [GdalOpen p; GdalGetDriverByName "ENVI"].
      by rewrite <- app_assoc. }
  destruct (cr _).
  - destruct Hstep as (bs & -> & _). cbn. split_and!; try done.
    eexists [GdalOpen p; GdalGetDriverByName "ENVI"; GdalCreate _].
    by rewrite <- !app_assoc.
  - rewrite Hstep. cbn. split_and!; try done.
    eexists [GdalOpen p; GdalGetDriverByName "ENVI"; GdalCreate _].
    by rewrite <- !app_assoc.
Qed.

(** What an iteration does to the two lists. *)
Lemma convert_file_frame out dtype fmt p st :
  let '(st', r) := convert_file out dtype fmt p st in
  match token_of fmt p with
  | Raise e => r = Raise e ∧ st' = st
  | Ok tok =>
      frame st' = appended (frame st) (output_path out p) tok
      ∧ match r with
        | Ok _ => True
        | Raise e => e ∈ raster_errors out p
        end
  end.
Proof.
  destruct st as [f [m drv cr fl tr]]. unfold token_of.
  pose proof (convert_file_step out dtype fmt p f m drv cr fl tr) as Hstep.
  cbv zeta in Hstep.
  destruct (extract_date_from_filename _ fmt) as [tok|e].
  2:{ by rewrite Hstep. }
  unfold raster_errors.
  destruct (m !! p) as [src|].
  2:{ rewrite Hstep. split; [done|]. set_solver. }
  destruct drv.
  2:{ rewrite Hstep. split; [done|]. set_solver. }
  destruct (cr _).
  - by destruct Hstep as (bs & -> & _).
  - rewrite Hstep. split; [done|]. set_solver.
Qed.

Lemma for_each_world out dtype fmt file_list st :
  let '(st', _) := for_each file_list (convert_file out dtype fmt) st in
  files (world st') = files (world st)
  ∧ envi_driver (world st') = envi_driver (world st)
  ∧ creatable (world st') = creatable (world st)
  ∧ ∃ evs, trace (world st') = trace (world st) ++ evs
           ∧ forallb is_gdal_call evs = true.
Proof.
  revert st. induction file_list as [|p l IH]; intros st.
  - cbn. split_and!; try done. exists []. by rewrite app_nil_r.
  - rewrite for_each_cons.
    pose proof (convert_file_world out dtype fmt p st) as Hw.
    destruct (convert_file out dtype fmt p st) as [st1 [[]|e]].
    + specialize (IH st1).
      destruct (for_each l _ st1) as [st' r].
      destruct IH as (-> & -> & -> & evs2 & -> & H2).
      destruct Hw as (-> & -> & -> & evs1 & -> & H1).
      split_and!; try done. exists (evs1 ++ evs2).
      by rewrite app_assoc, forallb_app, H1, H2.
    + done.
Qed.

(** The state of the two lists when the loop ends, normally or not. *)
Lemma for_each_frame out dtype fmt file_list st :
  match for_each file_list (convert_file out dtype fmt) st with
  | (st', Ok _) =>
      ∃ toks,
        Forall2 (fun p tok => token_of fmt p = Ok tok) file_list toks
        ∧ output_files (frame st')
          = output_files (frame st) ++ (output_path out <$> file_list)
        ∧ time_vector (frame st') = time_vector (frame st) ++ toks
  | (st', Raise e) =>
      ∃ before failed rest toks,
        file_list = before ++ failed :: rest
        ∧ Forall2 (fun p tok => token_of fmt p = Ok tok) before toks
        ∧ match token_of fmt failed with
          | Raise e' =>
              e = e'
              ∧ output_files (frame st')
                = output_files (frame st) ++ (output_path out <$> before)
              ∧ time_vector (frame st') = time_vector (frame st) ++ toks
          | Ok tok =>
              e ∈ raster_errors out failed
              ∧ output_files (frame st')
                = output_files (frame st)
                  ++ (output_path out <$> before ++ [failed])
              ∧ time_vector (frame st')
                = time_vector (frame st) ++ toks ++ [tok]
          end
  end.
Proof.
  revert st. induction file_list as [|p l IH]; intros st.
  - cbn. exists []. by rewrite !app_nil_r.
  - rewrite for_each_cons.
    pose proof (convert_file_frame out dtype fmt p st) as Hf.
    destruct (convert_file out dtype fmt p st) as [st1 [[]|e]].
    + destruct (token_of fmt p) as [tok|e'] eqn:Htok; [|by destruct Hf].
      destruct Hf as [Hf _]. specialize (IH st1).
      destruct (for_each l _ st1) as [st' [[]|e]].
      * destruct IH as (toks & HF & Ho & Ht). exists (tok :: toks).
        rewrite Ho, Ht, Hf. cbn. rewrite <- !app_assoc.
        split_and!; [by constructor|done|done].
      * destruct IH as (dn & failed & rest & toks & -> & HF & IH).
        exists (p :: dn), failed, rest, (tok :: toks).
        split_and!; [done|by constructor|].
        destruct (token_of fmt failed) as [tok'|e''].
        -- destruct IH as (? & -> & ->). rewrite Hf. cbn.
           by rewrite <- !app_assoc.
        -- destruct IH as (? & -> & ->). rewrite Hf. cbn.
           by rewrite <- !app_assoc.
    + exists [], p, l, []. split_and!; [done|constructor|].
      destruct (token_of fmt p) as [tok|e'].
      * destruct Hf as [-> He]. cbn. split_and!; done.
      * destruct Hf as [[= ->] ->]. by rewrite !app_nil_r.
Qed.

End Loop.

Section ProgramFacts.
Context `{Gdal}.
Local Open Scope nat_scope.

Lemma dtype_map_None (dt : string) :
  dt ≠ "float32" -> dt ≠ "int16" -> dt ≠ "uint8" -> dtype_map !! dt = None.
Proof.
  intros H1 H2 H3. unfold dtype_map.
  rewrite !lookup_insert_ne by done. by apply lookup_singleton_ne.
Qed.

Lemma geotiff_to_envi_frame_run file_list out dt dtype fmt st :
  dtype_map !! dt = Some dtype ->
  geotiff_to_envi_frame file_list out dt fmt st
  = match for_each file_list (convert_file out dtype fmt) st with
    | (st', Ok _) => (st', Ok (output_files (frame st'), time_vector (frame st')))
    | (st', Raise e) => (st', Raise e)
    end.
Proof.
  intros Hdt. unfold geotiff_to_envi_frame. rewrite Hdt. run.
  by destruct (for_each _ _ st) as [st' [[]|e]].
Qed.

Lemma geotiff_to_envi_unsupported file_list out dt fmt (w : World) :
  dtype_map !! dt = None ->
  geotiff_to_envi file_list out dt fmt w = (w, Raise (UnsupportedPixelType dt)).
Proof.
  intros Hdt. unfold geotiff_to_envi, geotiff_to_envi_frame. by rewrite Hdt.
Qed.

Lemma geotiff_to_envi_run file_list out dt dtype fmt (w : World) :
  dtype_map !! dt = Some dtype ->
  geotiff_to_envi file_list out dt fmt w
  = match for_each file_list (convert_file out dtype fmt) (new_frame w) with
    | (st', Ok _) => (world st', Ok (output_files (frame st'), time_vector (frame st')))
    | (st', Raise e) => (world st', Raise e)
    end.
Proof.
  intros Hdt. unfold geotiff_to_envi.
  rewrite (geotiff_to_envi_frame_run _ _ _ _ _ _ Hdt).
  by destruct (for_each _ _ _) as [st' [[]|e]].
Qed.

(** The conversion touches no text file, and all it records are GDAL calls. *)
Lemma geotiff_to_envi_world file_list out dt fmt (w : World) :
  let '(w', _) := geotiff_to_envi file_list out dt fmt w in
  files w' = files w
  ∧ ∃ evs, trace w' = trace w ++ evs ∧ forallb is_gdal_call evs = true.
Proof.
  destruct (dtype_map !! dt) as [dtype|] eqn:Hdt.
  - rewrite (geotiff_to_envi_run _ _ _ _ _ _ Hdt).
    pose proof (for_each_world out dtype fmt file_list (new_frame w)) as Hw.
    destruct (for_each _ _ _) as [st' [[]|e]];
      destruct Hw as (Hf & _ & _ & Hev); done.
  - rewrite geotiff_to_envi_unsupported by done.
    split; [done|]. exists []. by rewrite app_nil_r.
Qed.

Lemma strptime_empty : Datetime.strptime_Ymd EmptyString = None.
Proof. reflexivity. Qed.

(** No pattern finds a date in the empty name. *)
Lemma token_of_empty (fmt : Re.regex) : ∃ e, token_of fmt EmptyString = Raise e.
Proof.
  unfold token_of, extract_date_from_filename.
  change (PosixPath.basename EmptyString) with EmptyString.
  destruct (Re.search fmt EmptyString) as [m|] eqn:Hs; [|eauto].
  assert (m = EmptyString) as ->.
  { cbn in Hs. unfold Re.match_ in Hs.
    destruct (Re.matches fmt EmptyString _) as [m'|] eqn:Hm; [|done].
    injection Hs as ->.
    apply ReFacts.matches_Some in Hm as (rest & [= <-]).
    unfold Re.consumed. by destruct (_ - _). }
  rewrite strptime_empty. eauto.
Qed.

Lemma main_run (args : Args) (w : World) :
  main args w =
    match files w !! file_list_path args with
    | None =>
        (log (Stdout (Msg_list_not_found (file_list_path args))) w, Ok tt)
    | Some content =>
        match geotiff_to_envi
                (TextIO.splitlines (TextIO.universal_newlines content))
                (arg_output_folder args) (arg_output_dtype args)
                date_format_main w with
        | (w2, Raise e) => (log (Stdout (Msg_conversion_error e)) w2, Ok tt)
        | (w2, Ok (outs, tv)) =>
            let '(lp, tp) := manifest_paths (arg_output_folder args) in
            (log (Stdout (Msg_time_vector_saved tp))
               (log (Stdout (Msg_output_files_saved lp))
                  (set_files <[tp := lines_text tv]>
                     (log (FileWrite tp)
                        (set_files <[lp := lines_text outs]>
                           (log (FileWrite lp) w2))))), Ok tt)
        end
    end.
Proof.
  unfold main, read_file_list.
  destruct (files w !! file_list_path args) as [content|]; [|done].
  destruct (geotiff_to_envi _ _ _ _ w) as [w2 [[outs tv]|e]]; [done|].
  by destruct e.
Qed.

End ProgramFacts.

Section MainFacts.
Context `{Gdal}.
Local Open Scope nat_scope.

Lemma new_events_app (w w' : World) (evs : list event) :
  trace w' = trace w ++ evs -> new_events w w' = evs.
Proof. intros Htr. unfold new_events. by rewrite Htr, drop_app_length. Qed.

Lemma no_write_in_gdal_calls (evs : list event) (path : string) :
  forallb is_gdal_call evs = true -> FileWrite path ∉ evs.
Proof.
  intros Hall Hin%list_elem_of_In. rewrite forallb_forall in Hall.
  by apply Hall in Hin.
Qed.

Lemma for_each_app {S A} (l1 l2 : list A) (body : A -> M S unit) (st : S) :
  for_each (l1 ++ l2) body st
  = match for_each l1 body st with
    | (st', Ok _) => for_each l2 body st'
    | (st', Raise e) => (st', Raise e)
    end.
Proof.
  revert st. induction l1 as [|x l1 IH]; intros st; [done|].
  cbn [app]. rewrite !for_each_cons.
  destruct (body x st) as [st1 [[]|e]]; [apply IH|done].
Qed.

(** A conversion that succeeds: what was there, and what it leaves. *)
Lemma convert_file_success out dtype fmt p (st st1 : state) :
  convert_file out dtype fmt p st = (st1, Ok tt) ->
  ∃ src bs,
    rasters (world st) !! p = Some src
    ∧ rasters (world st1)
      = <[output_path out p := with_bands (converted dtype src) bs]>
          (rasters (world st))
    ∧ length bs = length (bands src)
    ∧ (p ≠ output_path out p -> bs = (stored_as dtype <$> bands src)).
Proof.
  destruct st as [f [m drv cr fl tr]].
  pose proof (convert_file_step out dtype fmt p f m drv cr fl tr) as Hstep.
  cbv zeta in Hstep. intros Hrun.
  destruct (extract_date_from_filename _ fmt) as [tok|e]; [|congruence].
  destruct (m !! p) as [src|] eqn:Hp; [|congruence].
  destruct drv; [|congruence].
  destruct (cr _); [|congruence].
  destruct Hstep as (bs & Hs & Hlen & Hbs). rewrite Hs in Hrun.
  injection Hrun as <-. exists src, bs. cbn. split_and!; done.
Qed.

End MainFacts.

(** * Facts about the date token *)

Lemma first_8_digit_substring_is_8_digits (s m : string) :
  Spec.first_8_digit_substring s = Some m -> Spec.is_8_digits m = true.
Proof.
  unfold Spec.first_8_digit_substring.
  intros Hh%head_Some_elem_of. by apply list_elem_of_filter in Hh as [? _].
Qed.

Lemma parse_month_range (m : string) (y mo d : N) :
  Spec.parse_YYYYMMDD m = Some (y, mo, d) -> (1 <= mo <= 12)%N.
Proof.
  unfold Spec.parse_YYYYMMDD.
  destruct (_ && _) eqn:Hc; [|done]. intros [= <- <- <-].
  repeat (apply andb_true_iff in Hc as [Hc ?]).
  repeat match goal with
         | Hle : (_ <=? _)%N = true |- _ => apply N.leb_le in Hle
         end.
  lia.
Qed.

(** The program's date token is the specification's. *)
Lemma extract_date_spec (filename : string) :
  extract_date_from_filename filename date_format_main
  = Spec.date_token filename.
Proof.
  unfold extract_date_from_filename, Spec.date_token.
  rewrite ReFacts.search_digits8.
  destruct (Spec.first_8_digit_substring filename) as [m|] eqn:E; [|done].
  apply first_8_digit_substring_is_8_digits in E.
  pose proof (DateFacts.strptime_8_digits m E) as Hp.
  destruct (Datetime.strptime_Ymd m) as [[y mo d]|]; cbn in Hp; rewrite <- Hp;
    [|done].
  symmetry in Hp. apply parse_month_range in Hp.
  unfold Spec.year_doy. by rewrite DateFacts.tm_yday_spec.
Qed.

(** A date that [strptime] returns passed the checks of the constructor. *)
Lemma strptime_valid (s : string) (dt : Datetime.date) :
  Datetime.strptime_Ymd s = Some dt ->
  Datetime.check_date_fields (Datetime.year dt) (Datetime.month dt)
    (Datetime.day dt) = true.
Proof.
  unfold Datetime.strptime_Ymd.
  destruct (Re.matches _ _ _) as [[[s1 s2] s3]|]; cbn; [|done].
  destruct (negb _); [done|].
  destruct (PyStr.int (Re.consumed s s1)) as [y|],
    (PyStr.int (Re.consumed s1 s2)) as [m|],
    (PyStr.int (Re.consumed s2 s3)) as [d|]; cbn; try done.
  unfold Datetime.new.
  destruct (Datetime.check_date_fields y m d) eqn:E; [|done].
  by intros [= <-].
Qed.

Lemma tm_yday_bound (dt : Datetime.date) :
  Datetime.check_date_fields (Datetime.year dt) (Datetime.month dt)
    (Datetime.day dt) = true ->
  (1 <= Datetime.tm_yday dt <= 366)%N.
Proof.
  destruct dt as [y m d]. unfold Datetime.check_date_fields. cbn.
  intros Hc. repeat (apply andb_true_iff in Hc as [Hc ?]).
  repeat match goal with
         | Hle : (_ <=? _)%N = true |- _ => apply N.leb_le in Hle
         end.
  assert (1 <= m <= 12)%N as Hm%DateFacts.month_cases by lia.
  assert (Datetime._days_before_month y m + Datetime._days_in_month y m <= 366)%N.
  { clear -Hm. unfold Datetime._days_before_month, Datetime._days_in_month.
    repeat (apply elem_of_cons in Hm as [->|Hm];
            [by destruct (Datetime._is_leap y)|]).
    by apply elem_of_nil in Hm. }
  unfold Datetime.tm_yday. cbn [Datetime.year Datetime.month Datetime.day]. lia.
Qed.

(** Years of four significant digits give seven characters. *)
Lemma str_year_length (y : N) :
  (1000 <= y <= 9999)%N -> String.length (PyStr.str y) = 4%nat.
Proof.
  intros Hy.
  assert (forallb (fun n => (String.length (PyStr.str (N.of_nat n)) =? 4)%nat)
            (seq (N.to_nat 1000) (N.to_nat 9000)) = true) as Hall by (vm_compute; reflexivity).
  rewrite forallb_forall in Hall.
  specialize (Hall (N.to_nat y)). rewrite N2Nat.id in Hall.
  apply Nat.eqb_eq, Hall, in_seq. lia.
Qed.

Lemma format_03d_length (n : N) :
  (n <= 999)%N -> String.length (PyStr.format_03d n) = 3%nat.
Proof.
  intros Hn.
  assert (forallb (fun n => (String.length (PyStr.format_03d (N.of_nat n)) =? 3)%nat)
            (seq 0 (N.to_nat 1000)) = true) as Hall by (vm_compute; reflexivity).
  rewrite forallb_forall in Hall.
  specialize (Hall (N.to_nat n)). rewrite N2Nat.id in Hall.
  apply Nat.eqb_eq, Hall, in_seq. lia.
Qed.

(** From the year 1000 on the token has seven characters: four of the
    year and three of the day of the year. *)
Lemma token_length_from_year_1000 (filename date_str : string)
    (dt : Datetime.date) :
  Re.search date_format_main filename = Some date_str ->
  Datetime.strptime_Ymd date_str = Some dt ->
  (1000 <= Datetime.year dt)%N ->
  ∃ tok,
    extract_date_from_filename filename date_format_main = Ok tok
    ∧ String.length tok = 7%nat
    ∧ String.length (PyStr.str (Datetime.year dt)) = 4%nat.
Proof.
  intros Hs Hp Hy. unfold extract_date_from_filename. rewrite Hs, Hp.
  eexists. split; [done|].
  pose proof (strptime_valid _ _ Hp) as Hv.
  pose proof (tm_yday_bound _ Hv) as Hd.
  unfold Datetime.check_date_fields, Datetime.MAXYEAR in Hv.
  repeat (apply andb_true_iff in Hv as [Hv ?]).
  repeat match goal with
         | Hle : (_ <=? _)%N = true |- _ => apply N.leb_le in Hle
         end.
  rewrite PyStrFacts.str_length_app, str_year_length, format_03d_length by lia.
  done.
Qed.

Lemma filter_nonempty_all (ls : list string) :
  Forall (fun line => line ≠ EmptyString) ls ->
  filter (fun line => line ≠ EmptyString) ls = ls.
Proof.
  induction 1 as [|l ls Hl _ IH]; [done|].
  by rewrite filter_cons_True, IH.
Qed.

(** * The claims *)

(** C1: when the conversion of the batch fails, [main] prints the error
    and returns; the text files are as they were and no manifest was
    written.  A manifest is written only by a run whose conversion
    returned the two lists for the whole input. *)
Theorem failed_batch_writes_no_manifest `{Gdal} (args : Args) (w : World) :
  let '(w', r) := main args w in
  (∀ file_list w1 w2 e,
     read_file_list (file_list_path args) w = (w1, Ok file_list) ->
     geotiff_to_envi file_list (arg_output_folder args) (arg_output_dtype args)
       date_format_main w1 = (w2, Raise e) ->
     r = Ok tt
     ∧ w' = log (Stdout (Msg_conversion_error e)) w2
     ∧ files w' = files w
     ∧ ∀ path, FileWrite path ∉ new_events w w')
  ∧ ((∃ path, FileWrite path ∈ new_events w w') ->
     ∃ file_list w2 outs tv,
       read_file_list (file_list_path args) w = (w, Ok file_list)
       ∧ geotiff_to_envi file_list (arg_output_folder args)
           (arg_output_dtype args) date_format_main w = (w2, Ok (outs, tv))
       ∧ files w'
         = <[(manifest_paths (arg_output_folder args)).2 := lines_text tv]>
             (<[(manifest_paths (arg_output_folder args)).1 := lines_text outs]>
                (files w))).
Proof.
  destruct (main args w) as [w' r] eqn:Hmain.
  rewrite main_run in Hmain. unfold read_file_list.
  destruct (files w !! file_list_path args) as [content|] eqn:Hlist.
  2:{ injection Hmain as <- <-. split; [by intros ? ? ? ? [=]|].
      intros [path Hin]. rewrite (new_events_app _ _ [Stdout _]) in Hin by done.
      apply list_elem_of_singleton in Hin. discriminate. }
  set (file_list := TextIO.splitlines _) in *.
  pose proof (geotiff_to_envi_world file_list (arg_output_folder args)
                (arg_output_dtype args) date_format_main w) as Hw.
  destruct (geotiff_to_envi _ _ _ _ w) as [w2 [[outs tv]|e]] eqn:Hrun;
    destruct Hw as (Hfiles & evs & Htr & Hevs).
  - cbn in Hmain. injection Hmain as <- <-. split.
    + intros ? ? ? ? [= <- <-]. by rewrite Hrun.
    + intros _. exists file_list, w2, outs, tv. split_and!; [done|done|].
      cbn. by rewrite Hfiles.
  - injection Hmain as <- <-.
    assert (∀ path, FileWrite path
                    ∉ new_events w (log (Stdout (Msg_conversion_error e)) w2))
      as Hno.
    { intros path. rewrite (new_events_app _ _ (evs ++ [Stdout (Msg_conversion_error e)])).
      2:{ cbn. by rewrite Htr, <- app_assoc. }
      intros [Hin|Hin]%elem_of_app.
      - by apply no_write_in_gdal_calls in Hin.
      - apply list_elem_of_singleton in Hin. discriminate. }
    split.
    + intros ? ? ? ? [= <- <-]. rewrite Hrun. intros [= <- <-]. done.
    + intros [path Hin]. by apply Hno in Hin.
Qed.

Lemma failed_batch_writes_no_manifest_witness :
  (main (H := IntGdal) (mkArgs "list.txt" "out" "int16") broken_world).2 = Ok tt
  ∧ files (main (H := IntGdal) (mkArgs "list.txt" "out" "int16") broken_world).1
    = files broken_world
  ∧ ∀ path,
      FileWrite path
      ∉ new_events broken_world
          (main (H := IntGdal) (mkArgs "list.txt" "out" "int16") broken_world).1.
Proof.
  pose proof (failed_batch_writes_no_manifest (H := IntGdal)
                (mkArgs "list.txt" "out" "int16") broken_world) as Hthm.
  destruct (main _ broken_world) as [w' r].
  destruct Hthm as [Hfail _].
  edestruct Hfail as (Hr & _ & Hfiles & Hno).
  - reflexivity.
  - vm_compute. reflexivity.
  - done.
Defined.

(** C2, refuted as worded: the source of "a_20230405.tif" cannot be
    opened, and both lists already hold the entry of that file. *)
Lemma appends_before_conversion :
  convert_file (H := IntGdal) "out" GDT_Float32 date_format_main
    "a_20230405.tif" (new_frame empty_world)
  = (mkstate (mklocals ["out/a_20230405.img"] ["2023095"])
       (log (GdalOpen "a_20230405.tif") empty_world),
     Raise (SourceOpenFailure "a_20230405.tif"))
  ∧ ¬ appends_only_after_success.
Proof.
  assert (convert_file (H := IntGdal) "out" GDT_Float32 date_format_main
            "a_20230405.tif" (new_frame empty_world)
          = (mkstate (mklocals ["out/a_20230405.img"] ["2023095"])
               (log (GdalOpen "a_20230405.tif") empty_world),
             Raise (SourceOpenFailure "a_20230405.tif"))) as Hrun
    by (vm_compute; reflexivity).
  split; [done|]. intros Hclaim.
  specialize (Hclaim IntGdal _ _ _ _ _ _ _ Hrun). discriminate Hclaim.
Qed.

(** C2, amended: both entries of a file are appended as soon as its date
    token is extracted and before its source is opened, in input order.
    When the function returns, the lists hold the entries of every input;
    when a file fails at its date, they hold the entries of the files
    before it; when it fails later (open, driver, create), they hold its
    entries too; when the pixel type is refused, they are empty. *)
Theorem appends_follow_date_extraction `{Gdal} (file_list : list string)
    (out dt : string) (fmt : Re.regex) (w : World) :
  match geotiff_to_envi_frame file_list out dt fmt (new_frame w) with
  | (st', Ok (outs, tv)) =>
      frame st' = mklocals outs tv
      ∧ outs = (output_path out <$> file_list)
      ∧ Forall2 (fun p tok => token_of fmt p = Ok tok) file_list tv
  | (st', Raise e) =>
      (e = UnsupportedPixelType dt ∧ frame st' = mklocals [] [])
      ∨ ∃ before failed rest toks,
          file_list = before ++ failed :: rest
          ∧ Forall2 (fun p tok => token_of fmt p = Ok tok) before toks
          ∧ match token_of fmt failed with
            | Raise e' =>
                e = e'
                ∧ frame st' = mklocals (output_path out <$> before) toks
            | Ok tok =>
                e ∈ raster_errors out failed
                ∧ frame st'
                  = mklocals (output_path out <$> before ++ [failed])
                      (toks ++ [tok])
            end
  end.
Proof.
  destruct (dtype_map !! dt) as [dtype|] eqn:Hdt.
  - rewrite (geotiff_to_envi_frame_run _ _ _ _ _ _ Hdt).
    pose proof (for_each_frame out dtype fmt file_list (new_frame w)) as Hf.
    destruct (for_each _ _ _) as [[f' w'] [[]|e]]; cbn in Hf.
    + destruct Hf as (toks & HF & Ho & Ht).
      cbn [frame output_files time_vector] in *. subst.
      destruct f' as [outs tv]; cbn in *. by subst.
    + right. destruct Hf as (before & failed & rest & toks & -> & HF & Hf).
      exists before, failed, rest, toks. split_and!; [done|done|].
      destruct (token_of fmt failed) as [tok|e'];
        destruct Hf as (He & Ho & Ht); (split; [done|]);
        destruct f' as [outs tv]; cbn in *; by subst.
  - unfold geotiff_to_envi_frame. rewrite Hdt. by left.
Qed.

(** C3: when [geotiff_to_envi] returns, its two lists are as long as each
    other and as the list of the non-empty lines of the input list file
    (none of its lines is empty then). *)
Theorem returned_lists_lengths `{Gdal} (file_path : string)
    (file_list : list string) (out dt : string) (fmt : Re.regex)
    (w w1 w2 : World) (outs tv : list string) :
  read_file_list file_path w = (w1, Ok file_list) ->
  geotiff_to_envi file_list out dt fmt w1 = (w2, Ok (outs, tv)) ->
  ∃ content,
    files w !! file_path = Some content
    ∧ length outs = length tv
    ∧ length tv
      = length (filter (fun line => line ≠ EmptyString)
                  (TextIO.splitlines (TextIO.universal_newlines content)))
    ∧ length tv
      = length (TextIO.splitlines (TextIO.universal_newlines content)).
Proof.
  unfold read_file_list. intros Hread Hrun.
  destruct (files w !! file_path) as [content|]; [|done].
  injection Hread as <- <-. exists content. split; [done|].
  destruct (dtype_map !! dt) as [dtype|] eqn:Hdt.
  2:{ by rewrite geotiff_to_envi_unsupported in Hrun. }
  rewrite (geotiff_to_envi_run _ _ _ _ _ _ Hdt) in Hrun.
  pose proof (for_each_frame out dtype fmt
                (TextIO.splitlines (TextIO.universal_newlines content))
                (new_frame w)) as Hf.
  destruct (for_each _ _ _) as [st' [[]|e]]; [|done].
  injection Hrun as _ <- <-.
  destruct Hf as (toks & HF & -> & ->). cbn.
  rewrite length_fmap, <- (Forall2_length _ _ _ HF).
  split_and!; [done| |done].
  rewrite filter_nonempty_all; [done|].
  clear -HF. induction HF as [|p tok ps toks Hp _ IH]; constructor; [|done].
  intros ->. destruct (token_of_empty fmt) as [e He]. congruence.
Qed.

Lemma returned_lists_lengths_witness :
  ∃ content,
    files example_world !! "list.txt" = Some content
    ∧ length ["out/scene_20230405_x.img"; "out/scene_20230405_x.img"]
      = length ["2023095"; "2023095"]
    ∧ length ["2023095"; "2023095"]
      = length (filter (fun line => line ≠ EmptyString)
                  (TextIO.splitlines (TextIO.universal_newlines content)))
    ∧ length ["2023095"; "2023095"]
      = length (TextIO.splitlines (TextIO.universal_newlines content)).
Proof.
  eapply (returned_lists_lengths (H := IntGdal) "list.txt" _ "out" "uint8"
            date_format_main example_world).
  - reflexivity.
  - vm_compute. reflexivity.
Defined.

(** C4: the date token is a function of the filename alone:
    "scene_20230405_x.tif" gives "2023095", and for every filename the
    token is the first 8-digit substring, read as YYYYMMDD and written as
    the year followed by the day of the year; in the batch loop the
    filename is the basename of the input path. *)
Theorem date_token_derivation :
  extract_date_from_filename "scene_20230405_x.tif" date_format_main
  = Ok "2023095"
  ∧ (∀ filename,
       extract_date_from_filename filename date_format_main
       = Spec.date_token filename)
  ∧ (∀ (G : Gdal) out dtype geotiff_path st,
       let '(st', r) :=
         convert_file out dtype date_format_main geotiff_path st in
       match Spec.date_token (PosixPath.basename geotiff_path) with
       | Raise e => r = Raise e ∧ st' = st
       | Ok tok => time_vector (frame st') = time_vector (frame st) ++ [tok]
       end).
Proof.
  split_and!.
  - reflexivity.
  - apply extract_date_spec.
  - intros G out dtype p st.
    pose proof (convert_file_frame out dtype date_format_main p st) as Hf.
    destruct (convert_file _ _ _ _ st) as [st' r].
    unfold token_of in Hf. rewrite extract_date_spec in Hf.
    destruct (Spec.date_token _) as [tok|e]; [|done].
    destruct Hf as [-> _]. done.
Qed.

(** C5: a filename whose date has a year below 1000 gets a token of
    fewer than seven characters: the year is written without padding. *)
Theorem token_of_year_999 :
  extract_date_from_filename "scene_09990101_x.tif" date_format_main
  = Ok "999001"
  ∧ Spec.parse_YYYYMMDD "09990101" = Some (999, 1, 1)%N
  ∧ String.length "999001" = 6%nat.
Proof. split_and!; reflexivity. Qed.

(** C6: a filename without eight digits in a row raises "date format not
    found", and the loop looks at the basename only: digits in the
    directory part of the path do not count. *)
Theorem no_date_raises `{Gdal} (filename geotiff_path out : string)
    (dtype : GDALDataType) (st : state) :
  Spec.no_8_digit_run filename ->
  PosixPath.basename geotiff_path = filename ->
  extract_date_from_filename filename date_format_main
  = Raise (DateFormatNotFound filename)
  ∧ convert_file out dtype date_format_main geotiff_path st
    = (st, Raise (DateFormatNotFound filename)).
Proof.
  intros Hno%ReFacts.no_run_search Hbase.
  assert (extract_date_from_filename filename date_format_main
          = Raise (DateFormatNotFound filename)) as Hx.
  { unfold extract_date_from_filename. by rewrite Hno. }
  split; [done|].
  pose proof (convert_file_frame out dtype date_format_main geotiff_path st) as Hf.
  destruct (convert_file _ _ _ _ st) as [st' r].
  unfold token_of in Hf. rewrite Hbase, Hx in Hf. by destruct Hf as [-> ->].
Qed.

Lemma no_date_raises_witness :
  extract_date_from_filename "scene.tif" date_format_main
  = Raise (DateFormatNotFound "scene.tif")
  ∧ convert_file (H := IntGdal) "out" GDT_Float32 date_format_main
      "/data/20230405/scene.tif" (new_frame example_world)
    = (new_frame example_world, Raise (DateFormatNotFound "scene.tif")).
Proof.
  apply (no_date_raises (H := IntGdal) "scene.tif" "/data/20230405/scene.tif").
  - apply ReFacts.no_run_search. reflexivity.
  - reflexivity.
Defined.

(** C7: an [output_dtype] other than "float32", "int16" and "uint8" makes
    [geotiff_to_envi] raise "unsupported data type" with the world as it
    found it: no file was opened, no call to GDAL was made. *)
Theorem unsupported_dtype_raises `{Gdal} (file_list : list string)
    (output_folder output_dtype : string) (date_format : Re.regex)
    (w : World) :
  output_dtype ≠ "float32" ->
  output_dtype ≠ "int16" ->
  output_dtype ≠ "uint8" ->
  geotiff_to_envi file_list output_folder output_dtype date_format w
  = (w, Raise (UnsupportedPixelType output_dtype))
  ∧ new_events w (geotiff_to_envi file_list output_folder output_dtype
                    date_format w).1 = [].
Proof.
  intros H1 H2 H3.
  rewrite geotiff_to_envi_unsupported by by apply dtype_map_None.
  split; [done|]. unfold new_events. cbn. by rewrite drop_all.
Qed.

Lemma unsupported_dtype_raises_witness :
  geotiff_to_envi (H := IntGdal)
    ["/data/scene_20230405_x.tif"] "out" "float64" date_format_main example_world
  = (example_world, Raise (UnsupportedPixelType "float64"))
  ∧ new_events example_world
      (geotiff_to_envi (H := IntGdal) ["/data/scene_20230405_x.tif"] "out"
         "float64" date_format_main example_world).1 = [].
Proof.
  apply (unsupported_dtype_raises (H := IntGdal)); discriminate.
Defined.

(** C8: the destination is the output directory joined with the source's
    basename, its extension replaced by ".img": the name has no
    separator in it, and it is the last component of the destination.
    That path is what a conversion appends to the list and where it
    creates the dataset. *)
Theorem destination_path (output_folder geotiff_path : string) :
  ∃ root ext,
    Spec.extension_split (PosixPath.basename geotiff_path) root ext
    ∧ output_filename geotiff_path = root +:+ ".img"
    ∧ ¬ Spec.occurs "/" (output_filename geotiff_path)
    ∧ output_path output_folder geotiff_path
      = output_folder
        +:+ (if (output_folder =? EmptyString)%string
                || PyStr.endswith "/" output_folder
             then EmptyString else "/")
        +:+ output_filename geotiff_path
    ∧ PosixPath.basename (output_path output_folder geotiff_path)
      = output_filename geotiff_path
    ∧ ∀ (G : Gdal) dtype fmt st,
        let '(st', r) :=
          convert_file output_folder dtype fmt geotiff_path st in
        match r with
        | Ok _ =>
            output_files (frame st')
            = output_files (frame st)
              ++ [output_path output_folder geotiff_path]
            ∧ is_Some (rasters (world st')
                         !! output_path output_folder geotiff_path)
        | Raise _ => True
        end.
Proof.
  destruct (PathFacts.basename_spec geotiff_path) as [Hno _].
  pose proof (PathFacts.splitext_spec _ Hno) as Hsplit.
  exists (PosixPath.splitext (PosixPath.basename geotiff_path)).1,
         (PosixPath.splitext (PosixPath.basename geotiff_path)).2.
  assert (¬ Spec.occurs "/" (output_filename geotiff_path)) as Hname.
  { unfold output_filename. destruct Hsplit as [Heq _].
    rewrite PathFacts.occurs_app. intros [Hr|Hi].
    - apply Hno. rewrite Heq. apply PathFacts.occurs_app. by left.
    - repeat (apply PathFacts.occurs_cons in Hi as [?|Hi]; [done|]).
      by apply PathFacts.occurs_nil in Hi. }
  split_and!; [done|done|done|by apply PathFacts.join_name
               |by apply PathFacts.join_name|].
  intros G dtype fmt st.
  pose proof (convert_file_frame output_folder dtype fmt geotiff_path st) as Hf.
  destruct (convert_file _ _ _ _ st) as [st' [[]|e]] eqn:Hrun; [|done].
  apply convert_file_success in Hrun as (src & bs & _ & Hr & _).
  destruct (token_of fmt geotiff_path) as [tok|e]; [|by destruct Hf].
  destruct Hf as [-> _]. split; [done|].
  rewrite Hr, lookup_insert_eq. by eexists.
Qed.

(** C9: a blank line of the list file is an entry of the list that is
    read, its basename is empty and holds no date, and when the loop
    reaches it (the type is supported, the lines before it convert) the
    batch ends in "date format not found", which [main] prints; a list
    with a blank line is never converted to the end. *)
Theorem blank_line_aborts `{Gdal} (before after : list string)
    (file_path out dt : string) (dtype : GDALDataType) (w : World)
    (st1 : state) :
  let lines := before ++ EmptyString :: after in
  Forall (fun l => Spec.no_line_break l = true) lines ->
  files w !! file_path = Some (lines_text lines) ->
  dtype_map !! dt = Some dtype ->
  for_each before (convert_file out dtype date_format_main) (new_frame w)
  = (st1, Ok tt) ->
  read_file_list file_path w = (w, Ok lines)
  ∧ PosixPath.basename EmptyString = EmptyString
  ∧ extract_date_from_filename EmptyString date_format_main
    = Raise (DateFormatNotFound EmptyString)
  ∧ geotiff_to_envi lines out dt date_format_main w
    = (world st1, Raise (DateFormatNotFound EmptyString))
  ∧ main (mkArgs file_path out dt) w
    = (log (Stdout (Msg_conversion_error (DateFormatNotFound EmptyString)))
         (world st1),
       Ok tt)
  ∧ ∀ out' dt' fmt' w',
      ∃ e, (geotiff_to_envi lines out' dt' fmt' w').2 = Raise e.
Proof.
  intros lines Hlines Hfile Hdt Hbefore.
  assert (read_file_list file_path w = (w, Ok lines)) as Hread.
  { unfold read_file_list. rewrite Hfile.
    by rewrite TextFacts.splitlines_lines_text. }
  assert (geotiff_to_envi lines out dt date_format_main w
          = (world st1, Raise (DateFormatNotFound EmptyString))) as Hrun.
  { rewrite (geotiff_to_envi_run _ _ _ _ _ _ Hdt). subst lines.
    rewrite for_each_app, Hbefore, for_each_cons.
    pose proof (convert_file_frame out dtype date_format_main EmptyString st1) as Hf.
    destruct (convert_file _ _ _ EmptyString st1) as [st' r].
    change (token_of date_format_main EmptyString) with
      (@Raise string (DateFormatNotFound EmptyString)) in Hf.
    cbn in Hf. by destruct Hf as [-> ->]. }
  split_and!; [done|done|done|done| |].
  - rewrite main_run. cbn [file_list_path arg_output_folder arg_output_dtype].
    rewrite Hfile, TextFacts.splitlines_lines_text by done.
    fold lines. by rewrite Hrun.
  - intros out' dt' fmt' w'. clear Hread Hrun Hbefore. subst lines.
    destruct (dtype_map !! dt') as [dtype'|] eqn:Hdt'.
    2:{ rewrite geotiff_to_envi_unsupported by done. eauto. }
    rewrite (geotiff_to_envi_run _ _ _ _ _ _ Hdt').
    pose proof (for_each_frame out' dtype' fmt' (before ++ EmptyString :: after)
                  (new_frame w')) as Hf.
    destruct (for_each _ _ _) as [st' [[]|e]]; [|eauto].
    destruct Hf as (toks & HF & _). exfalso.
    apply Forall2_app_inv_l in HF as (? & ? & _ & HF & _).
    apply Forall2_cons_inv_l in HF as (tok & ? & Htok & _).
    destruct (token_of_empty fmt') as [e He]. congruence.
Qed.

Lemma blank_line_aborts_witness :
  read_file_list (H := IntGdal) "list.txt" blank_line_world
  = (blank_line_world,
     Ok ["/data/scene_20230405_x.tif"; EmptyString;
         "/data/scene_20230405_x.tif"])
  ∧ (main (H := IntGdal) (mkArgs "list.txt" "out" "uint8") blank_line_world).2
    = Ok tt
  ∧ last (trace (main (H := IntGdal) (mkArgs "list.txt" "out" "uint8")
                   blank_line_world).1)
    = Some (Stdout (Msg_conversion_error (DateFormatNotFound EmptyString))).
Proof.
  edestruct (blank_line_aborts (H := IntGdal) ["/data/scene_20230405_x.tif"]
               ["/data/scene_20230405_x.tif"] "list.txt" "out" "uint8" GDT_Byte
               blank_line_world)
    as (Hread & _ & _ & _ & Hmain & _).
  - repeat constructor.
  - reflexivity.
  - reflexivity.
  - vm_compute. reflexivity.
  - rewrite Hmain. split_and!; [exact Hread|reflexivity|].
    cbn [fst log trace]. apply last_snoc.
Defined.

(** C10: two inputs with one basename get one destination path.  A
    batch that converts both returns that path at both positions, and
    the later conversion replaces the dataset the earlier one left
    there. *)
Theorem same_basename_same_destination `{Gdal} (out : string)
    (dtype : GDALDataType) (fmt : Re.regex) (p1 p2 : string) :
  PosixPath.basename p1 = PosixPath.basename p2 ->
  output_path out p2 = output_path out p1
  ∧ (∀ file_list dt w w' outs tv i j,
       file_list !! i = Some p1 -> file_list !! j = Some p2 ->
       geotiff_to_envi file_list out dt fmt w = (w', Ok (outs, tv)) ->
       outs !! i = Some (output_path out p1)
       ∧ outs !! j = Some (output_path out p1))
  ∧ (∀ st st1 st2,
       convert_file out dtype fmt p1 st = (st1, Ok tt) ->
       convert_file out dtype fmt p2 st1 = (st2, Ok tt) ->
       ∃ r1 src2 bs,
         rasters (world st1) !! output_path out p1 = Some r1
         ∧ rasters (world st1) !! p2 = Some src2
         ∧ rasters (world st2)
           = <[output_path out p1 := with_bands (converted dtype src2) bs]>
               (rasters (world st))
         ∧ (p2 ≠ output_path out p1 -> bs = (stored_as dtype <$> bands src2))).
Proof.
  intros Hbase.
  assert (output_path out p2 = output_path out p1) as Hd.
  { unfold output_path, output_filename. by rewrite Hbase. }
  split_and!; [done| |].
  - intros file_list dt w w' outs tv i j Hi Hj Hrun.
    destruct (dtype_map !! dt) as [dtype'|] eqn:Hdt.
    2:{ by rewrite geotiff_to_envi_unsupported in Hrun. }
    rewrite (geotiff_to_envi_run _ _ _ _ _ _ Hdt) in Hrun.
    pose proof (for_each_frame out dtype' fmt file_list (new_frame w)) as Hf.
    destruct (for_each _ _ _) as [st' [[]|e]]; [|done].
    injection Hrun as _ <- _. destruct Hf as (toks & _ & -> & _). cbn.
    rewrite !list_lookup_fmap, Hi, Hj. cbn. by rewrite Hd.
  - intros st st1 st2 H1 H2.
    apply convert_file_success in H1 as (src1 & bs1 & _ & Hr1 & _).
    apply convert_file_success in H2 as (src2 & bs2 & Hs2 & Hr2 & _ & Hbs2).
    rewrite Hd in Hr2, Hbs2.
    exists (with_bands (converted dtype src1) bs1), src2, bs2.
    split_and!; [|done| |done].
    + rewrite Hr1. apply lookup_insert_eq.
    + rewrite Hr2, Hr1. apply insert_insert_eq.
Qed.

Lemma same_basename_same_destination_witness :
  output_path "out" "/other/scene_20230405_x.tif"
  = output_path "out" "/data/scene_20230405_x.tif"
  ∧ (geotiff_to_envi (H := IntGdal)
       ["/data/scene_20230405_x.tif"; "/other/scene_20230405_x.tif"]
       "out" "uint8" date_format_main example_world).2
    = Ok (["out/scene_20230405_x.img"; "out/scene_20230405_x.img"],
          ["2023095"; "2023095"]).
Proof.
  destruct (same_basename_same_destination (H := IntGdal) "out" GDT_Byte
              date_format_main "/data/scene_20230405_x.tif"
              "/other/scene_20230405_x.tif") as (Hd & _ & _).
  - reflexivity.
  - split; [exact Hd|]. vm_compute. reflexivity.
Defined.

(** * Further facts *)

Section MoreFacts.
Context `{Gdal}.
Local Open Scope nat_scope.

(** A conversion that runs to its end, in full. *)
Lemma convert_file_ok out dtype fmt p (st st1 : state) :
  convert_file out dtype fmt p st = (st1, Ok tt) ->
  ∃ tok src bs,
    token_of fmt p = Ok tok
    ∧ rasters (world st) !! p = Some src
    ∧ envi_driver (world st) = true
    ∧ creatable (world st) (output_path out p) = true
    ∧ st1 = mkstate (appended (frame st) (output_path out p) tok)
              (mkWorld
                 (<[output_path out p := with_bands (converted dtype src) bs]>
                    (rasters (world st)))
                 (envi_driver (world st)) (creatable (world st))
                 (files (world st))
                 (trace (world st) ++ calls_of out p))
    ∧ length bs = length (bands src)
    ∧ (p ≠ output_path out p -> bs = (stored_as dtype <$> bands src)).
Proof.
  destruct st as [f [m drv cr fl tr]].
  pose proof (convert_file_step out dtype fmt p f m drv cr fl tr) as Hstep.
  cbv zeta in Hstep. intros Hrun. unfold token_of.
  destruct (extract_date_from_filename _ fmt) as [tok|e]; [|congruence].
  destruct (m !! p) as [src|] eqn:Hp; [|congruence].
  destruct drv; [|congruence].
  destruct (cr _) eqn:Hcr; [|congruence].
  destruct Hstep as (bs & Hs & Hlen & Hbs). rewrite Hs in Hrun.
  injection Hrun as <-. exists tok, src, bs. cbn.
  split_and!; try done. unfold calls_of. by rewrite <- !app_assoc.
Qed.

(** A conversion that raises leaves the raster store as it found it. *)
Lemma convert_file_raise out dtype fmt p (st st1 : state) e :
  convert_file out dtype fmt p st = (st1, Raise e) ->
  rasters (world st1) = rasters (world st).
Proof.
  destruct st as [f [m drv cr fl tr]].
  pose proof (convert_file_step out dtype fmt p f m drv cr fl tr) as Hstep.
  cbv zeta in Hstep. intros Hrun.
  destruct (extract_date_from_filename _ fmt) as [tok|e'].
  2:{ rewrite Hstep in Hrun. by injection Hrun as <-. }
  destruct (m !! p) as [src|].
  2:{ rewrite Hstep in Hrun. by injection Hrun as <-. }
  destruct drv.
  2:{ rewrite Hstep in Hrun. by injection Hrun as <-. }
  destruct (cr _).
  - destruct Hstep as (bs & Hs & _). congruence.
  - rewrite Hstep in Hrun. by injection Hrun as <-.
Qed.

(** What is enough for a conversion to run to its end. *)
Lemma convert_file_runs out dtype fmt p (st : state) tok :
  token_of fmt p = Ok tok ->
  is_Some (rasters (world st) !! p) ->
  envi_driver (world st) = true ->
  creatable (world st) (output_path out p) = true ->
  ∃ st1, convert_file out dtype fmt p st = (st1, Ok tt).
Proof.
  destruct st as [f [m drv cr fl tr]]. cbn. unfold token_of.
  intros Htok [src Hsrc] -> Hcr.
  pose proof (convert_file_step out dtype fmt p f m true cr fl tr) as Hstep.
  cbv zeta in Hstep. rewrite Htok, Hsrc, Hcr in Hstep.
  destruct Hstep as (bs & -> & _). eauto.
Qed.



(** The calls a loop that ran to its end has made. *)
Lemma for_each_calls out dtype fmt file_list (st st' : state) :
  for_each file_list (convert_file out dtype fmt) st = (st', Ok tt) ->
  trace (world st') = trace (world st) ++ (file_list ≫= calls_of out).
Proof.
  revert st. induction file_list as [|p l IH]; intros st Hrun.
  - injection Hrun as <-. cbn. by rewrite app_nil_r.
  - rewrite for_each_cons in Hrun.
    destruct (convert_file out dtype fmt p st) as [st1 [[]|e]] eqn:Hp; [|done].
    apply convert_file_ok in Hp as (tok & src & bs & _ & _ & _ & _ & -> & _).
    rewrite (IH _ Hrun). cbn. by rewrite <- !app_assoc.
Qed.

End MoreFacts.

Section MoreLoopFacts.
Context `{Gdal}.
Local Open Scope nat_scope.

(** No iteration removes a dataset. *)
Lemma convert_file_keeps out dtype fmt p (st st1 : state) r k :
  convert_file out dtype fmt p st = (st1, r) ->
  is_Some (rasters (world st) !! k) -> is_Some (rasters (world st1) !! k).
Proof.
  intros Hrun Hk. destruct r as [[]|e].
  - apply convert_file_ok in Hrun as (tok & src & bs & _ & _ & _ & _ & -> & _).
    cbn. by apply lookup_insert_is_Some'; right.
  - by rewrite (convert_file_raise _ _ _ _ _ _ _ Hrun).
Qed.

Lemma for_each_keeps out dtype fmt file_list (st st' : state) r k :
  for_each file_list (convert_file out dtype fmt) st = (st', r) ->
  is_Some (rasters (world st) !! k) -> is_Some (rasters (world st') !! k).
Proof.
  revert st. induction file_list as [|p l IH]; intros st Hrun Hk.
  - by injection Hrun as <- _.
  - rewrite for_each_cons in Hrun.
    destruct (convert_file out dtype fmt p st) as [st1 [[]|e]] eqn:Hp.
    + eapply IH; [done|]. by eapply convert_file_keeps.
    + injection Hrun as <- _. by eapply convert_file_keeps.
Qed.

(** Datasets of the requested type stay of that type, and every input
    of a loop that ran to its end has one at its destination. *)
Lemma for_each_outputs out dtype fmt file_list (st st' : state) :
  for_each file_list (convert_file out dtype fmt) st = (st', Ok tt) ->
  (∀ k r, rasters (world st) !! k = Some r -> DataType r = dtype ->
          ∃ r', rasters (world st') !! k = Some r' ∧ DataType r' = dtype)
  ∧ (∀ p, p ∈ file_list ->
          ∃ r, rasters (world st') !! output_path out p = Some r
               ∧ DataType r = dtype).
Proof.
  revert st. induction file_list as [|p l IH]; intros st Hrun.
  - injection Hrun as <-. split; [eauto|]. by intros p Hp%elem_of_nil.
  - rewrite for_each_cons in Hrun.
    destruct (convert_file out dtype fmt p st) as [st1 [[]|e]] eqn:Hp; [|done].
    apply convert_file_ok in Hp as (tok & src & bs & _ & _ & _ & _ & -> & _).
    destruct (IH _ Hrun) as [Hkeep Hout]. cbn in Hkeep. split.
    + intros k r Hk Hr. destruct (decide (output_path out p = k)) as [<-|Hne].
      * eapply Hkeep; [apply lookup_insert_eq|done].
      * eapply Hkeep; [by rewrite lookup_insert_ne|done].
    + intros q [->|Hq]%elem_of_cons; [|by apply Hout].
      eapply Hkeep; [apply lookup_insert_eq|done].
Qed.

(** The destination name has no separator in it. *)
Lemma output_filename_no_sep (geotiff_path : string) :
  ¬ Spec.occurs "/" (output_filename geotiff_path).
Proof.
  destruct (PathFacts.basename_spec geotiff_path) as [Hno _].
  destruct (PathFacts.splitext_spec _ Hno) as [Heq _].
  unfold output_filename. rewrite PathFacts.occurs_app. intros [Hr|Hi].
  - apply Hno. rewrite Heq. apply PathFacts.occurs_app. by left.
  - repeat (apply PathFacts.occurs_cons in Hi as [?|Hi]; [done|]).
    by apply PathFacts.occurs_nil in Hi.
Qed.

End MoreLoopFacts.

Module MoreTextFacts.
Import PyStrFacts TextIO TextFacts.

Lemma lines_with_cons (eol l : string) (ls : list string) :
  lines_with eol (l :: ls) = l +:+ eol +:+ lines_with eol ls.
Proof.
  unfold lines_with. cbn [map]. destruct ls as [|l' ls]; cbn.
  - by rewrite str_app_nil_r.
  - by rewrite str_app_assoc.
Qed.

Lemma universal_newlines_crlf (l rest : string) :
  Spec.no_line_break l = true ->
  universal_newlines (l +:+ crlf +:+ rest)
  = l +:+ newline +:+ universal_newlines rest.
Proof.
  induction l as [|c l IH]; intros Hl; [done|].
  cbn in Hl. apply andb_true_iff in Hl as [Hc Hl]. apply negb_true_iff in Hc.
  rewrite !str_app_cons, universal_newlines_cons by done. by rewrite IH.
Qed.

Lemma universal_newlines_id (l : string) :
  Spec.no_line_break l = true -> universal_newlines l = l.
Proof.
  induction l as [|c l IH]; intros Hl; [done|].
  cbn in Hl. apply andb_true_iff in Hl as [Hc Hl]. apply negb_true_iff in Hc.
  rewrite universal_newlines_cons by done. by rewrite IH.
Qed.

Lemma splitlines_go_char (c : ascii) (s : string) (cur : option string) :
  is_line_boundary c = false ->
  splitlines_go cur (String c s)
  = splitlines_go (Some (String c (default EmptyString cur))) s.
Proof. intros Hc. cbn [splitlines_go]. by rewrite Hc. Qed.

(** A last line without a line end is a line, unless it is empty. *)
Lemma splitlines_go_last (c : ascii) (l : string) (cur : option string) :
  Spec.no_line_break (String c l) = true ->
  splitlines_go cur (String c l)
  = [String.rev (default EmptyString cur) +:+ String c l].
Proof.
  revert c cur. induction l as [|c' l IH]; intros c cur Hl;
    cbn in Hl; apply andb_true_iff in Hl as [Hc Hl]; apply negb_true_iff in Hc;
    rewrite splitlines_go_char by done.
  - cbn. unfold String.rev. cbn. by rewrite !rev_app_app.
  - rewrite IH by done. cbn [default].
    unfold String.rev. cbn [String.rev_app]. by rewrite !rev_app_app.
Qed.

Lemma read_lines (eol : string) (ls : list string) (last : string) :
  eol = newline ∨ eol = crlf ->
  Forall (fun l => Spec.no_line_break l = true) ls ->
  Spec.no_line_break last = true ->
  splitlines (universal_newlines (lines_with eol ls +:+ last))
  = ls ++ (if decide (last = EmptyString) then [] else [last]).
Proof.
  intros Heol Hls Hlast. unfold splitlines.
  induction Hls as [|l ls Hl _ IH].
  - change (lines_with eol []) with EmptyString.
    rewrite str_app_nil_l, universal_newlines_id by done. cbn [app].
    destruct last as [|c last]; [done|].
    rewrite splitlines_go_last by done. by rewrite decide_False.
  - rewrite lines_with_cons, !str_app_assoc.
    assert (universal_newlines (l +:+ eol +:+ lines_with eol ls +:+ last)
            = l +:+ newline +:+ universal_newlines (lines_with eol ls +:+ last))
      as ->.
    { destruct Heol as [->| ->];
        [by apply universal_newlines_line|by apply universal_newlines_crlf]. }
    rewrite splitlines_go_line by done. by rewrite IH.
Qed.

End MoreTextFacts.

Section MainMoreFacts.
Context `{Gdal}.
Local Open Scope nat_scope.

(** The two manifests are two files. *)
Lemma manifest_paths_differ (output_folder : string) :
  (manifest_paths output_folder).1 ≠ (manifest_paths output_folder).2.
Proof.
  unfold manifest_paths. cbn [fst snd].
  assert (∀ name, forallb (fun c => negb (Ascii.eqb c PosixPath.sep))
                    (list_ascii_of_string name) = true ->
                  ¬ Spec.occurs PosixPath.sep name) as Hno.
  { intros name. induction name as [|c name IH]; intros Hc.
    - apply PathFacts.occurs_nil.
    - cbn [list_ascii_of_string forallb] in Hc.
      apply andb_true_iff in Hc as [Hc1 Hc2].
      rewrite PathFacts.occurs_cons. intros [->|Ho].
      + by rewrite Ascii.eqb_refl in Hc1.
      + by apply IH. }
  destruct (PathFacts.join_name output_folder "ENVI_file_list.txt") as [-> _].
  { by apply Hno. }
  destruct (PathFacts.join_name output_folder "time_vector.txt") as [-> _].
  { by apply Hno. }
  intros Heq%(inj (String.app _)). by destruct (_ || _).
Qed.

End MainMoreFacts.

Module TokenFacts.
Import PyStr PyStrFacts Datetime.

(** [s[:-3]] and [s[-3:]] take a text apart before its last three
    characters. *)
Lemma slice_last_3 (a b : string) :
  String.length b = 3%nat ->
  slice_to (-3) (a +:+ b) = a ∧ slice_from (-3) (a +:+ b) = b.
Proof.
  intros Hb. unfold slice_to, slice_from, index.
  change (-3 <? 0) with true. cbn match.
  rewrite str_length_app, Hb.
  replace (Z.to_nat _) with (String.length a) by lia.
  by rewrite str_take_app_length, str_drop_app_length.
Qed.

(** [int] reads back what [str] writes. *)
Lemma int_str (y : N) : (y <= 9999)%N -> int (str y) = Some y.
Proof.
  intros Hy.
  assert (forallb (fun n => bool_decide (int (str (N.of_nat n)) = Some (N.of_nat n)))
            (seq 0 (N.to_nat 10000)) = true) as Hall by (vm_compute; reflexivity).
  rewrite forallb_forall in Hall.
  specialize (Hall (N.to_nat y)). rewrite N2Nat.id in Hall.
  eapply bool_decide_eq_true_1, Hall, in_seq. lia.
Qed.

(** ... and what the padded format writes. *)
Lemma int_format_03d (n : N) : (n <= 999)%N -> int (format_03d n) = Some n.
Proof.
  intros Hn.
  assert (forallb (fun n => bool_decide (int (format_03d (N.of_nat n)) = Some (N.of_nat n)))
            (seq 0 (N.to_nat 1000)) = true) as Hall by (vm_compute; reflexivity).
  rewrite forallb_forall in Hall.
  specialize (Hall (N.to_nat n)). rewrite N2Nat.id in Hall.
  eapply bool_decide_eq_true_1, Hall, in_seq. lia.
Qed.

Ltac table_values :=
  repeat match goal with
         | |- context [default 0%N (?t !! ?n)] =>
             let v := eval vm_compute in (default 0%N (t !! n)) in
             change (default 0%N (t !! n)) with v
         end.

(** Within a year, the day of the year names one day. *)
Lemma tm_yday_inj (y m1 d1 m2 d2 : N) :
  check_date_fields y m1 d1 = true ->
  check_date_fields y m2 d2 = true ->
  tm_yday (mkdate y m1 d1) = tm_yday (mkdate y m2 d2) ->
  m1 = m2 ∧ d1 = d2.
Proof.
  unfold check_date_fields, tm_yday. cbn [year month day].
  intros H1 H2.
  repeat (apply andb_true_iff in H1 as [H1 ?]).
  repeat (apply andb_true_iff in H2 as [H2 ?]).
  repeat match goal with
         | Hle : (_ <=? _)%N = true |- _ => apply N.leb_le in Hle
         end.
  assert (1 <= m1 <= 12)%N as Hm1%DateFacts.month_cases by lia.
  assert (1 <= m2 <= 12)%N as Hm2%DateFacts.month_cases by lia.
  repeat match goal with
         | Hle : (_ <= _days_in_month _ _)%N |- _ => revert Hle
         end.
  unfold _days_before_month, _days_in_month.
  destruct (_is_leap y);
    repeat (apply elem_of_cons in Hm1 as [->|Hm1];
            [repeat (apply elem_of_cons in Hm2 as [->|Hm2];
                     [table_values; cbn; lia|]);
             by apply elem_of_nil in Hm2|]);
    by apply elem_of_nil in Hm1.
Qed.

(** The parts of a token that was derived. *)
Lemma token_parts (filename tok : string) :
  extract_date_from_filename filename date_format_main = Ok tok ->
  ∃ date_str dt,
    Re.search date_format_main filename = Some date_str
    ∧ strptime_Ymd date_str = Some dt
    ∧ check_date_fields (year dt) (month dt) (day dt) = true
    ∧ tok = str (year dt) +:+ format_03d (tm_yday dt)
    ∧ String.length (format_03d (tm_yday dt)) = 3%nat
    ∧ (year dt <= 9999)%N ∧ (tm_yday dt <= 999)%N.
Proof.
  unfold extract_date_from_filename.
  destruct (Re.search _ _) as [date_str|]; [|done].
  destruct (strptime_Ymd date_str) as [dt|] eqn:Hp; [|done].
  intros [= <-]. exists date_str, dt.
  pose proof (strptime_valid _ _ Hp) as Hv.
  pose proof (tm_yday_bound _ Hv) as Hd.
  assert (year dt <= 9999)%N as Hy.
  { unfold check_date_fields in Hv.
    repeat (apply andb_true_iff in Hv as [Hv ?]).
    repeat match goal with
           | Hle : (_ <=? _)%N = true |- _ => apply N.leb_le in Hle
           end.
    done. }
  split_and!; try done; [|lia].
  apply format_03d_length. lia.
Qed.

End TokenFacts.

Section FailureFacts.
Context `{Gdal}.
Local Open Scope nat_scope.

Lemma convert_file_failure out dtype fmt p (st : state) :
  match convert_file out dtype fmt p st with
  | (st1, Ok _) =>
      failure_of out fmt (envi_driver (world st)) (creatable (world st))
        (dom (rasters (world st))) p = None
      ∧ dom (rasters (world st1))
        = {[output_path out p]} ∪ dom (rasters (world st))
      ∧ envi_driver (world st1) = envi_driver (world st)
      ∧ creatable (world st1) = creatable (world st)
  | (st1, Raise e) =>
      failure_of out fmt (envi_driver (world st)) (creatable (world st))
        (dom (rasters (world st))) p = Some e
  end.
Proof.
  destruct st as [f [m drv cr fl tr]].
  pose proof (convert_file_step out dtype fmt p f m drv cr fl tr) as Hstep.
  cbn zeta in Hstep. unfold failure_of, token_of. cbn [world envi_driver creatable rasters].
  destruct (extract_date_from_filename _ fmt) as [tok|e]; [|by rewrite Hstep].
  destruct (m !! p) as [src|] eqn:Hsrc.
  - rewrite bool_decide_eq_true_2 by (apply elem_of_dom; eauto).
    destruct drv; [|by rewrite Hstep].
    destruct (cr (output_path out p)); [|by rewrite Hstep].
    destruct Hstep as (bs & -> & _). cbn. split_and!; try done.
    by rewrite dom_insert_L.
  - rewrite bool_decide_eq_false_2 by (by apply not_elem_of_dom).
    by rewrite Hstep.
Qed.

Lemma for_each_failure out dtype fmt file_list (st : state) :
  match for_each file_list (convert_file out dtype fmt) st with
  | (_, Ok _) =>
      first_failure out fmt (envi_driver (world st)) (creatable (world st))
        (dom (rasters (world st))) file_list = None
  | (_, Raise e) =>
      first_failure out fmt (envi_driver (world st)) (creatable (world st))
        (dom (rasters (world st))) file_list = Some e
  end.
Proof.
  revert st. induction file_list as [|p l IH]; intros st; [done|].
  rewrite for_each_cons. cbn [first_failure].
  pose proof (convert_file_failure out dtype fmt p st) as Hp.
  destruct (convert_file out dtype fmt p st) as [st1 [[]|e]].
  - destruct Hp as (-> & Hdom & Hdrv & Hcr).
    specialize (IH st1). rewrite Hdom, Hdrv, Hcr in IH. exact IH.
  - by rewrite Hp.
Qed.

End FailureFacts.

(** * Further properties *)

(** X1: a conversion that runs to its end, with a source that is not its
    own destination, leaves at the destination a dataset with the size,
    the geotransform and the projection of the source, of the requested
    type, whose bands are those of the source stored at that type; the
    source and every other dataset are as they were. *)
Theorem conversion_copies_source `{Gdal} (out : string) (dtype : GDALDataType)
    (fmt : Re.regex) (p : string) (st st' : state) :
  convert_file out dtype fmt p st = (st', Ok tt) ->
  p ≠ output_path out p ->
  ∃ src dst,
    rasters (world st) !! p = Some src
    ∧ rasters (world st') !! output_path out p = Some dst
    ∧ RasterXSize dst = RasterXSize src
    ∧ RasterYSize dst = RasterYSize src
    ∧ RasterCount dst = RasterCount src
    ∧ GeoTransform dst = GeoTransform src
    ∧ Projection dst = Projection src
    ∧ DataType dst = dtype
    ∧ bands dst = (stored_as dtype <$> bands src)
    ∧ ∀ k, k ≠ output_path out p ->
           rasters (world st') !! k = rasters (world st) !! k.
Proof.
  intros Hrun Hne.
  apply convert_file_ok in Hrun
    as (tok & src & bs & _ & Hsrc & _ & _ & -> & _ & Hbs).
  rewrite (Hbs Hne). exists src, (converted dtype src). cbn.
  rewrite with_bands_id, lookup_insert_eq.
  split_and!; try done.
  - unfold RasterCount. cbn. apply length_fmap.
  - intros k Hk. by rewrite lookup_insert_ne.
Qed.

Lemma conversion_copies_source_witness :
  ∃ dst,
    rasters (world (convert_file (H := IntGdal) "out" GDT_Byte date_format_main
                      "/data/scene_20230405_x.tif" (new_frame example_world)).1)
      !! "out/scene_20230405_x.img" = Some dst
    ∧ GeoTransform dst = GeoTransform example_raster
    ∧ Projection dst = Projection example_raster
    ∧ bands dst = (stored_as (Gdal := IntGdal) GDT_Byte <$> bands example_raster).
Proof.
  destruct (convert_file (H := IntGdal) "out" GDT_Byte date_format_main
              "/data/scene_20230405_x.tif" (new_frame example_world))
    as [st' r] eqn:Hrun.
  assert (r = Ok tt) as -> by (apply (f_equal snd) in Hrun; vm_compute in Hrun; congruence).
  edestruct (conversion_copies_source (H := IntGdal) _ _ _ _ _ _ Hrun)
    as (src & dst & Hsrc & Hdst & _ & _ & _ & Hg & Hp & _ & Hb & _).
  - vm_compute. discriminate.
  - vm_compute in Hsrc. injection Hsrc as <-.
    exists dst. split_and!; [exact Hdst|exact Hg|exact Hp|exact Hb].
Defined.

(** X2: a source is its own destination only if its name already ends in
    ".img" (and it lies where the output folder puts it): a file with
    another extension is never written over by its own conversion. *)
Theorem own_destination_is_img (output_folder geotiff_path : string) :
  output_path output_folder geotiff_path = geotiff_path ->
  ∃ root,
    PosixPath.basename geotiff_path = root +:+ ".img"
    ∧ (PosixPath.splitext (PosixPath.basename geotiff_path)).1 = root.
Proof.
  intros Heq.
  pose proof (output_filename_no_sep geotiff_path) as Hno.
  destruct (PathFacts.join_name output_folder _ Hno) as [_ Hbase].
  fold (output_path output_folder geotiff_path) in Hbase.
  rewrite Heq in Hbase.
  by exists (PosixPath.splitext (PosixPath.basename geotiff_path)).1.
Qed.

Lemma own_destination_is_img_witness :
  ∃ root,
    PosixPath.basename "out/scene_20230405.img" = root +:+ ".img"
    ∧ (PosixPath.splitext (PosixPath.basename "out/scene_20230405.img")).1
      = root.
Proof.
  apply (own_destination_is_img "out" "out/scene_20230405.img"). reflexivity.
Defined.



(** X4: when the batch returns, every path of the returned list names a
    dataset of the requested pixel type, and no dataset that was there
    before the batch is gone. *)
Theorem returned_paths_exist `{Gdal} (file_list : list string) (out dt : string)
    (fmt : Re.regex) (w w' : World) (outs tv : list string) :
  geotiff_to_envi file_list out dt fmt w = (w', Ok (outs, tv)) ->
  ∃ dtype,
    dtype_map !! dt = Some dtype
    ∧ (∀ d, d ∈ outs ->
         ∃ r, rasters w' !! d = Some r ∧ DataType r = dtype)
    ∧ (∀ k, is_Some (rasters w !! k) -> is_Some (rasters w' !! k)).
Proof.
  intros Hrun. destruct (dtype_map !! dt) as [dtype|] eqn:Hdt.
  2:{ by rewrite geotiff_to_envi_unsupported in Hrun. }
  rewrite (geotiff_to_envi_run _ _ _ _ _ _ Hdt) in Hrun.
  pose proof (for_each_frame out dtype fmt file_list (new_frame w)) as Hf.
  destruct (for_each _ _ _) as [st' [[]|e]] eqn:Hloop; [|done].
  injection Hrun as <- <- _. destruct Hf as (toks & _ & -> & _).
  exists dtype. split_and!; [done| |].
  - intros d (p & -> & Hp)%list_elem_of_fmap.
    by apply (for_each_outputs _ _ _ _ _ _ Hloop).
  - intros k Hk. by eapply for_each_keeps.
Qed.

Lemma returned_paths_exist_witness :
  ∃ dtype,
    dtype_map !! "uint8" = Some dtype
    ∧ (∀ d, d ∈ ["out/scene_20230405_x.img"; "out/scene_20230405_x.img"] ->
         ∃ r,
           rasters (geotiff_to_envi (H := IntGdal)
                      ["/data/scene_20230405_x.tif";
                       "/other/scene_20230405_x.tif"]
                      "out" "uint8" date_format_main example_world).1 !! d
           = Some r
           ∧ DataType r = dtype)
    ∧ (∀ k, is_Some (rasters example_world !! k) ->
         is_Some (rasters (geotiff_to_envi (H := IntGdal)
                             ["/data/scene_20230405_x.tif";
                              "/other/scene_20230405_x.tif"]
                             "out" "uint8" date_format_main example_world).1
                  !! k)).
Proof.
  destruct (geotiff_to_envi (H := IntGdal) _ _ _ _ example_world)
    as [w' r] eqn:Hrun.
  apply (returned_paths_exist (H := IntGdal)
           ["/data/scene_20230405_x.tif"; "/other/scene_20230405_x.tif"]
           "out" "uint8" date_format_main example_world w' _
           ["2023095"; "2023095"]).
  rewrite Hrun. f_equal.
  apply (f_equal snd) in Hrun. vm_compute in Hrun. by subst.
Defined.

(** X5: what is enough for the batch to return: a supported pixel type,
    the ENVI driver, and for every input a date in its basename, a
    dataset at its path and a destination that can be created.  It then
    returns the destination of every input, in input order. *)
Theorem batch_returns `{Gdal} (file_list : list string) (out dt : string)
    (dtype : GDALDataType) (fmt : Re.regex) (w : World) :
  dtype_map !! dt = Some dtype ->
  envi_driver w = true ->
  (∀ p, p ∈ file_list ->
     is_Some (rasters w !! p)
     ∧ creatable w (output_path out p) = true
     ∧ ∃ tok, token_of fmt p = Ok tok) ->
  ∃ w' tv,
    geotiff_to_envi file_list out dt fmt w
    = (w', Ok (output_path out <$> file_list, tv)).
Proof.
  intros Hdt Hdrv Hall. rewrite (geotiff_to_envi_run _ _ _ _ _ _ Hdt).
  assert (∃ st', for_each file_list (convert_file out dtype fmt) (new_frame w)
                 = (st', Ok tt)) as [st' Hloop].
  { assert (envi_driver (world (new_frame w)) = true) as Hd by done.
    assert (∀ p, p ∈ file_list ->
              is_Some (rasters (world (new_frame w)) !! p)
              ∧ creatable (world (new_frame w)) (output_path out p) = true
              ∧ ∃ tok, token_of fmt p = Ok tok) as Ha by done.
    clear Hdrv Hall. revert Hd Ha. generalize (new_frame w).
    induction file_list as [|p l IH]; intros st Hd Ha; [by eexists|].
    destruct (Ha p) as (Hsrc & Hcr & tok & Htok); [by left|].
    destruct (convert_file_runs out dtype fmt p st tok) as [st1 Hp]; try done.
    pose proof (convert_file_world out dtype fmt p st) as Hw.
    rewrite Hp in Hw. destruct Hw as (_ & Hd1 & Hc1 & _).
    destruct (IH st1) as [st' Hl].
    - by rewrite Hd1.
    - intros q Hq. destruct (Ha q) as (Hs & Hc & Ht); [by right|].
      split_and!; [|by rewrite Hc1|done].
      by eapply convert_file_keeps.
    - exists st'. by rewrite for_each_cons, Hp. }
  pose proof (for_each_frame out dtype fmt file_list (new_frame w)) as Hf.
  rewrite Hloop in Hf |- *. destruct Hf as (toks & _ & Ho & _).
  rewrite Ho. by eexists _, _.
Qed.

Lemma batch_returns_witness :
  ∃ w' tv,
    geotiff_to_envi (H := IntGdal)
      ["/data/scene_20230405_x.tif"; "/other/scene_20230405_x.tif"]
      "out" "uint8" date_format_main example_world
    = (w', Ok (output_path "out" <$>
                 ["/data/scene_20230405_x.tif"; "/other/scene_20230405_x.tif"],
               tv)).
Proof.
  apply (batch_returns (H := IntGdal) _ "out" "uint8" GDT_Byte).
  - reflexivity.
  - reflexivity.
  - intros p Hp.
    repeat (apply elem_of_cons in Hp as [->|Hp];
            [split_and!;
               [eexists; vm_compute; reflexivity|reflexivity
               |eexists; vm_compute; reflexivity]|]).
    by apply elem_of_nil in Hp.
Defined.

(** X6: a batch that returns has made, for each input in input order,
    one call to open it, one to get the driver and one to create its
    destination, and nothing else. *)
Theorem calls_in_input_order `{Gdal} (file_list : list string) (out dt : string)
    (fmt : Re.regex) (w w' : World) (outs tv : list string) :
  geotiff_to_envi file_list out dt fmt w = (w', Ok (outs, tv)) ->
  new_events w w' = file_list ≫= calls_of out.
Proof.
  intros Hrun. destruct (dtype_map !! dt) as [dtype|] eqn:Hdt.
  2:{ by rewrite geotiff_to_envi_unsupported in Hrun. }
  rewrite (geotiff_to_envi_run _ _ _ _ _ _ Hdt) in Hrun.
  destruct (for_each _ _ _) as [st' [[]|e]] eqn:Hloop; [|done].
  injection Hrun as <- _ _.
  apply new_events_app. by rewrite (for_each_calls _ _ _ _ _ _ Hloop).
Qed.

Lemma calls_in_input_order_witness :
  new_events example_world
    (geotiff_to_envi (H := IntGdal)
       ["/data/scene_20230405_x.tif"; "/other/scene_20230405_x.tif"]
       "out" "uint8" date_format_main example_world).1
  = ["/data/scene_20230405_x.tif"; "/other/scene_20230405_x.tif"]
    ≫= calls_of "out".
Proof.
  destruct (geotiff_to_envi (H := IntGdal) _ _ _ _ example_world)
    as [w' r] eqn:Hrun.
  apply (calls_in_input_order (H := IntGdal) _ "out" "uint8" date_format_main
           example_world w'
           ["out/scene_20230405_x.img"; "out/scene_20230405_x.img"]
           ["2023095"; "2023095"]).
  rewrite Hrun. f_equal.
  apply (f_equal snd) in Hrun. vm_compute in Hrun. by subst.
Defined.

(** X7: [read_file_list] gives one entry per line whether the lines end
    in LF or in CRLF, and whether or not the last line has a line end; an
    empty text after the last line end is not an entry. *)
Theorem read_file_list_line_ends `{Gdal} (eol : string) (ls : list string)
    (last file_path : string) (w : World) :
  eol = TextIO.newline ∨ eol = crlf ->
  Forall (fun l => Spec.no_line_break l = true) ls ->
  Spec.no_line_break last = true ->
  files w !! file_path = Some (lines_with eol ls +:+ last) ->
  read_file_list file_path w
  = (w, Ok (ls ++ (if decide (last = EmptyString) then [] else [last]))).
Proof.
  intros Heol Hls Hlast Hfile. unfold read_file_list. rewrite Hfile.
  by rewrite MoreTextFacts.read_lines.
Qed.

Lemma read_file_list_line_ends_witness :
  read_file_list (H := IntGdal) "list.txt" crlf_world
  = (crlf_world, Ok ["a_20230405.tif"; "b_20230406.tif"]).
Proof.
  apply (read_file_list_line_ends (H := IntGdal) crlf ["a_20230405.tif"]
           "b_20230406.tif" "list.txt" crlf_world).
  - by right.
  - by repeat constructor.
  - reflexivity.
  - reflexivity.
Defined.

(** X8: reading back a file that [save_list_to_file] wrote gives the
    list that was written, when no item holds a character that ends a
    line; writing changes no other text file and no dataset. *)
Theorem save_then_read `{Gdal} (data_list : list string) (file_path : string)
    (w : World) :
  Forall (fun l => Spec.no_line_break l = true) data_list ->
  let w' := (save_list_to_file data_list file_path w).1 in
  read_file_list file_path w' = (w', Ok data_list)
  ∧ (∀ other, other ≠ file_path -> files w' !! other = files w !! other)
  ∧ rasters w' = rasters w
  ∧ new_events w w' = [FileWrite file_path].
Proof.
  intros Hl. cbn. split_and!.
  - unfold read_file_list. cbn. rewrite lookup_insert_eq.
    by rewrite TextFacts.splitlines_lines_text.
  - intros other Hne. by rewrite lookup_insert_ne.
  - done.
  - by apply new_events_app.
Qed.

Lemma save_then_read_witness :
  read_file_list (H := IntGdal) "out/time_vector.txt"
    (save_list_to_file (H := IntGdal) ["2023095"; EmptyString; "2023096"]
       "out/time_vector.txt" empty_world).1
  = ((save_list_to_file (H := IntGdal) ["2023095"; EmptyString; "2023096"]
        "out/time_vector.txt" empty_world).1,
     Ok ["2023095"; EmptyString; "2023096"]).
Proof.
  apply (save_then_read (H := IntGdal) ["2023095"; EmptyString; "2023096"]
           "out/time_vector.txt" empty_world).
  by repeat constructor.
Defined.

(** An item with a line end in it does not come back as one entry. *)
Lemma save_then_read_splits :
  (read_file_list (H := IntGdal) "m.txt"
     (save_list_to_file (H := IntGdal) ["a" +:+ TextIO.newline +:+ "b"] "m.txt"
        empty_world).1).2
  = Ok ["a"; "b"].
Proof. reflexivity. Qed.

(** X9: when the list is read and the batch returns, [main] returns
    after writing the two manifests, one line per input in input order
    (the destination paths in one, the date tokens in the other), then
    printing where they are; it changes no other text file and no
    dataset. *)
Theorem main_writes_manifests `{Gdal} (args : Args) (w w1 w2 : World)
    (file_list outs tv : list string) :
  read_file_list (file_list_path args) w = (w1, Ok file_list) ->
  geotiff_to_envi file_list (arg_output_folder args) (arg_output_dtype args)
    date_format_main w1 = (w2, Ok (outs, tv)) ->
  let lp := (manifest_paths (arg_output_folder args)).1 in
  let tp := (manifest_paths (arg_output_folder args)).2 in
  ∃ w',
    main args w = (w', Ok tt)
    ∧ outs = (output_path (arg_output_folder args) <$> file_list)
    ∧ Forall2 (fun p tok => Spec.date_token (PosixPath.basename p) = Ok tok)
        file_list tv
    ∧ files w' !! lp = Some (lines_text outs)
    ∧ files w' !! tp = Some (lines_text tv)
    ∧ (∀ k, k ≠ lp -> k ≠ tp -> files w' !! k = files w !! k)
    ∧ rasters w' = rasters w2
    ∧ new_events w2 w'
      = [FileWrite lp; FileWrite tp; Stdout (Msg_output_files_saved lp);
         Stdout (Msg_time_vector_saved tp)].
Proof.
  intros Hread Hrun lp tp.
  assert (w1 = w) as ->.
  { unfold read_file_list in Hread.
    destruct (files w !! file_list_path args); by injection Hread as <-. }
  pose proof (geotiff_to_envi_world file_list (arg_output_folder args)
                (arg_output_dtype args) date_format_main w) as Hw.
  rewrite Hrun in Hw. destruct Hw as [Hfiles _].
  assert (outs = (output_path (arg_output_folder args) <$> file_list)
          ∧ Forall2 (fun p tok => token_of date_format_main p = Ok tok)
              file_list tv) as [Houts Htv].
  { destruct (dtype_map !! arg_output_dtype args) as [dtype|] eqn:Hdt.
    2:{ by rewrite geotiff_to_envi_unsupported in Hrun. }
    rewrite (geotiff_to_envi_run _ _ _ _ _ _ Hdt) in Hrun.
    pose proof (for_each_frame (arg_output_folder args) dtype date_format_main
                  file_list (new_frame w)) as Hf.
    destruct (for_each _ _ _) as [st' [[]|e]]; [|done].
    injection Hrun as _ <- <-. by destruct Hf as (toks & HF & -> & ->). }
  rewrite main_run. unfold read_file_list in Hread.
  destruct (files w !! file_list_path args) as [content|]; [|done].
  injection Hread as ->. rewrite Hrun.
  pose proof (manifest_paths_differ (arg_output_folder args)) as Hne.
  destruct (manifest_paths (arg_output_folder args)) as [lp' tp'] eqn:Hmp.
  cbn [fst snd] in *. subst lp tp.
  eexists. split; [done|]. cbn.
  split_and!; [done| | | | |done|].
  - eapply Forall2_impl; [done|]. intros p tok Hp.
    unfold token_of in Hp. by rewrite extract_date_spec in Hp.
  - rewrite lookup_insert_ne by done. apply lookup_insert_eq.
  - apply lookup_insert_eq.
  - intros k Hk1 Hk2. by rewrite !lookup_insert_ne, Hfiles by done.
  - apply new_events_app. cbn. by rewrite <- !app_assoc.
Qed.

Lemma main_writes_manifests_witness :
  ∃ w',
    main (H := IntGdal) (mkArgs "list.txt" "out" "uint8") example_world
    = (w', Ok tt)
    ∧ files w' !! "out/ENVI_file_list.txt"
      = Some (lines_text ["out/scene_20230405_x.img"; "out/scene_20230405_x.img"])
    ∧ files w' !! "out/time_vector.txt" = Some (lines_text ["2023095"; "2023095"]).
Proof.
  edestruct (main_writes_manifests (H := IntGdal)
               (mkArgs "list.txt" "out" "uint8") example_world)
    as (w' & Hmain & _ & _ & Hl & Ht & _).
  - reflexivity.
  - vm_compute. reflexivity.
  - exists w'. split_and!; [exact Hmain|exact Hl|exact Ht].
Defined.

(** X10: when the list file is not there, [main] prints that it was not
    found and returns: no call to GDAL, no file written. *)
Theorem main_without_list `{Gdal} (args : Args) (w : World) :
  files w !! file_list_path args = None ->
  main args w
  = (log (Stdout (Msg_list_not_found (file_list_path args))) w, Ok tt)
  ∧ new_events w (main args w).1
    = [Stdout (Msg_list_not_found (file_list_path args))].
Proof.
  intros Hnone. rewrite main_run, Hnone. split; [done|].
  by apply new_events_app.
Qed.

Lemma main_without_list_witness :
  main (H := IntGdal) (mkArgs "nolist.txt" "out" "float32") example_world
  = (log (Stdout (Msg_list_not_found "nolist.txt")) example_world, Ok tt)
  ∧ new_events example_world
      (main (H := IntGdal) (mkArgs "nolist.txt" "out" "float32")
         example_world).1
    = [Stdout (Msg_list_not_found "nolist.txt")].
Proof.
  apply (main_without_list (H := IntGdal)
           (mkArgs "nolist.txt" "out" "float32") example_world).
  reflexivity.
Defined.

(** X11: an empty list file is no error: with a supported pixel type
    [main] makes no call to GDAL and writes two empty manifests. *)
Theorem main_with_empty_list `{Gdal} (args : Args) (w : World)
    (dtype : GDALDataType) :
  files w !! file_list_path args = Some EmptyString ->
  dtype_map !! arg_output_dtype args = Some dtype ->
  let lp := (manifest_paths (arg_output_folder args)).1 in
  let tp := (manifest_paths (arg_output_folder args)).2 in
  ∃ w',
    main args w = (w', Ok tt)
    ∧ files w' !! lp = Some EmptyString
    ∧ files w' !! tp = Some EmptyString
    ∧ rasters w' = rasters w
    ∧ new_events w w'
      = [FileWrite lp; FileWrite tp; Stdout (Msg_output_files_saved lp);
         Stdout (Msg_time_vector_saved tp)].
Proof.
  intros Hfile Hdt lp tp.
  rewrite main_run, Hfile.
  change (TextIO.splitlines (TextIO.universal_newlines EmptyString)) with (@nil string).
  rewrite (geotiff_to_envi_run _ _ _ _ _ _ Hdt). cbn [for_each].
  pose proof (manifest_paths_differ (arg_output_folder args)) as Hne.
  destruct (manifest_paths (arg_output_folder args)) as [lp' tp'] eqn:Hmp.
  cbn [fst snd] in *. subst lp tp.
  eexists. split; [done|]. cbn.
  split_and!; [|apply lookup_insert_eq|done|].
  - rewrite lookup_insert_ne by done. apply lookup_insert_eq.
  - apply new_events_app. cbn. by rewrite <- !app_assoc.
Qed.

Lemma main_with_empty_list_witness :
  ∃ w',
    main (H := IntGdal) (mkArgs "list.txt" "out" "float32") empty_list_world
    = (w', Ok tt)
    ∧ files w' !! "out/ENVI_file_list.txt" = Some EmptyString
    ∧ files w' !! "out/time_vector.txt" = Some EmptyString
    ∧ rasters w' = rasters empty_list_world
    ∧ new_events empty_list_world w'
      = [FileWrite "out/ENVI_file_list.txt"; FileWrite "out/time_vector.txt";
         Stdout (Msg_output_files_saved "out/ENVI_file_list.txt");
         Stdout (Msg_time_vector_saved "out/time_vector.txt")].
Proof.
  apply (main_with_empty_list (H := IntGdal)
           (mkArgs "list.txt" "out" "float32") empty_list_world GDT_Float32);
    reflexivity.
Defined.

(** X12: when the first run of eight digits of the file name is not a
    date of the calendar, the derivation raises the error of the date
    value, with that run; a later run is not tried. *)
Theorem first_run_not_a_date (filename m : string) :
  Spec.first_8_digit_substring filename = Some m ->
  Spec.parse_YYYYMMDD m = None ->
  extract_date_from_filename filename date_format_main
  = Raise (InvalidDateValue m).
Proof.
  intros Hfirst Hparse.
  unfold extract_date_from_filename.
  pose proof (extract_date_spec filename) as Hspec.
  unfold extract_date_from_filename, Spec.date_token in Hspec.
  rewrite Hfirst, Hparse in Hspec.
  destruct (Re.search date_format_main filename) as [date_str|]; [|done].
  destruct (Datetime.strptime_Ymd date_str) as [dt|]; done.
Qed.

Lemma first_run_not_a_date_witness :
  extract_date_from_filename "a_20231305_20230405.tif" date_format_main
  = Raise (InvalidDateValue "20231305").
Proof.
  apply (first_run_not_a_date "a_20231305_20230405.tif" "20231305");
    vm_compute; reflexivity.
Defined.

(** X13: a derived token reads back: its last three characters are the
    day of the year and what stands before them is the year, whatever
    the number of digits of the year. *)
Theorem token_reads_back (filename tok : string) :
  extract_date_from_filename filename date_format_main = Ok tok ->
  ∃ date_str dt,
    Re.search date_format_main filename = Some date_str
    ∧ Datetime.strptime_Ymd date_str = Some dt
    ∧ PyStr.int (PyStr.slice_to (-3) tok) = Some (Datetime.year dt)
    ∧ PyStr.int (PyStr.slice_from (-3) tok) = Some (Datetime.tm_yday dt)
    ∧ (1 <= Datetime.tm_yday dt <= 366)%N.
Proof.
  intros (date_str & dt & Hs & Hp & Hv & -> & Hlen & Hy & Hd)%TokenFacts.token_parts.
  exists date_str, dt.
  destruct (TokenFacts.slice_last_3 (PyStr.str (Datetime.year dt)) _ Hlen)
    as [-> ->].
  split; [done|]. split; [done|].
  split; [by apply TokenFacts.int_str|].
  split; [by apply TokenFacts.int_format_03d|].
  by apply tm_yday_bound.
Qed.

Lemma token_reads_back_witness :
  ∃ date_str dt,
    Re.search date_format_main "scene_09990101_x.tif" = Some date_str
    ∧ Datetime.strptime_Ymd date_str = Some dt
    ∧ PyStr.int (PyStr.slice_to (-3) "999001") = Some (Datetime.year dt)
    ∧ PyStr.int (PyStr.slice_from (-3) "999001") = Some (Datetime.tm_yday dt)
    ∧ (1 <= Datetime.tm_yday dt <= 366)%N.
Proof.
  apply (token_reads_back "scene_09990101_x.tif" "999001").
  vm_compute. reflexivity.
Defined.

(** X14: no two dates share a token: file names with the same token
    carry the same date. *)
Theorem same_token_same_date (filename1 filename2 tok : string) :
  extract_date_from_filename filename1 date_format_main = Ok tok ->
  extract_date_from_filename filename2 date_format_main = Ok tok ->
  ∃ dt,
    Re.search date_format_main filename1 ≫= Datetime.strptime_Ymd = Some dt
    ∧ Re.search date_format_main filename2 ≫= Datetime.strptime_Ymd = Some dt.
Proof.
  intros (s1 & dt1 & Hs1 & Hp1 & Hv1 & Htok & Hlen1 & Hy1 & Hd1)%TokenFacts.token_parts
         (s2 & dt2 & Hs2 & Hp2 & Hv2 & -> & Hlen2 & Hy2 & Hd2)%TokenFacts.token_parts.
  exists dt1. rewrite Hs1, Hs2. split; [exact Hp1|].
  enough (dt2 = dt1) as <- by exact Hp2.
  assert (PyStr.str (Datetime.year dt2) = PyStr.str (Datetime.year dt1)
          ∧ PyStr.format_03d (Datetime.tm_yday dt2)
            = PyStr.format_03d (Datetime.tm_yday dt1)) as [Hys Hds].
  { destruct (TokenFacts.slice_last_3 (PyStr.str (Datetime.year dt1)) _ Hlen1)
      as [Ha Hb].
    destruct (TokenFacts.slice_last_3 (PyStr.str (Datetime.year dt2)) _ Hlen2)
      as [Hc Hd].
    rewrite <- Htok in Ha, Hb. by rewrite Ha in Hc; rewrite Hb in Hd. }
  assert (Datetime.year dt2 = Datetime.year dt1) as Hy.
  { apply (f_equal PyStr.int) in Hys.
    rewrite !TokenFacts.int_str in Hys by done. by injection Hys. }
  assert (Datetime.tm_yday dt2 = Datetime.tm_yday dt1) as Hd.
  { apply (f_equal PyStr.int) in Hds.
    rewrite !TokenFacts.int_format_03d in Hds by done. by injection Hds. }
  destruct dt1 as [y1 m1 d1], dt2 as [y2 m2 d2]. cbn in Hy. subst y2.
  cbn [Datetime.year Datetime.month Datetime.day] in Hv1, Hv2.
  by destruct (TokenFacts.tm_yday_inj _ _ _ _ _ Hv2 Hv1 Hd) as [-> ->].
Qed.

Lemma same_token_same_date_witness :
  ∃ dt,
    Re.search date_format_main "a_20240229.tif" ≫= Datetime.strptime_Ymd = Some dt
    ∧ Re.search date_format_main "b20240229_v2.tiff" ≫= Datetime.strptime_Ymd
      = Some dt.
Proof.
  apply (same_token_same_date "a_20240229.tif" "b20240229_v2.tiff" "2024060");
    vm_compute; reflexivity.
Defined.

(** X15: with a supported pixel type the batch raises exactly the
    failure of the first input that has one, and returns when none has:
    for each input the date is tested first, then the source, then the
    driver, then the destination; a source that an earlier input of the
    batch has written counts as present. *)
Theorem batch_raises_first_failure `{Gdal} (file_list : list string)
    (out dt : string) (dtype : GDALDataType) (fmt : Re.regex) (w : World) :
  dtype_map !! dt = Some dtype ->
  match first_failure out fmt (envi_driver w) (creatable w) (dom (rasters w))
          file_list with
  | Some e => (geotiff_to_envi file_list out dt fmt w).2 = Raise e
  | None =>
      ∃ tv, (geotiff_to_envi file_list out dt fmt w).2
            = Ok (output_path out <$> file_list, tv)
  end.
Proof.
  intros Hdt. rewrite (geotiff_to_envi_run _ _ _ _ _ _ Hdt).
  pose proof (for_each_failure out dtype fmt file_list (new_frame w)) as Hfail.
  pose proof (for_each_frame out dtype fmt file_list (new_frame w)) as Hframe.
  cbn [new_frame world] in Hfail.
  destruct (for_each _ _ _) as [st' [[]|e]]; rewrite Hfail; [|done].
  destruct Hframe as (toks & _ & -> & _). eexists. reflexivity.
Qed.

Lemma batch_raises_first_failure_witness :
  (geotiff_to_envi (H := IntGdal) chained_list "out" "int16" date_format_main
     broken_world).2
  = Raise (SourceOpenFailure "/data/scene_20230406_x.tif").
Proof.
  apply (batch_raises_first_failure (H := IntGdal) chained_list "out" "int16"
           GDT_Int16 date_format_main broken_world).
  reflexivity.
Defined.
